(** * tars_bot: the per-user rate limiter and conversation store

    A shallow embedding of [bot.py] and [bot2.0.py].  Both files keep their
    state in module-level [defaultdict]s keyed by the Telegram user id; the
    handlers read the wall clock once ([time.time()]) and talk to two
    collaborators: the transport ([update.message.reply_text]) and the
    generation backend ([client.chat.completions.create]).

    Modelling choices, all visible in the definitions below:
    - a [defaultdict] is a [gmap] together with its default; reading a missing
      key with [d[k]] stores the default under [k], testing [k in d] does not;
    - a timestamp is an integer number of seconds ([Z]); the rounding of the
      float subtraction of two clock readings is not modelled;
    - a Python [str] is a list of characters;
    - the clock reading and the outcome of the backend call are inputs of a
      handler, the texts it sends and the request it makes are its trace;
    - the transport is assumed to deliver ([reply_text] does not raise) and a
      backend answer carries a [str] as its content. *)

From Stdlib Require Import ZArith Ascii String List Lia.
From stdpp Require Import base decidable option list gmap strings.

Local Open Scope Z_scope.

(** ** Texts *)

Abbreviation text := (list ascii).

Definition str (s : string) : text := list_ascii_of_string s.

(** ** [defaultdict] *)

Section defaultdict.
Context {V : Type} (default_factory : V).

(** [d[k]]: a missing key is first bound to the default. *)
Definition getitem (d : gmap Z V) (k : Z) : V * gmap Z V :=
  match d !! k with
  | Some v => (v, d)
  | None => (default_factory, <[k := default_factory]> d)
  end.

(** [d[k] = v] *)
Definition setitem (d : gmap Z V) (k : Z) (v : V) : gmap Z V := <[k := v]> d.

(** [k in d] *)
Definition contains (d : gmap Z V) (k : Z) : bool := bool_decide (is_Some (d !! k)).

(** What a read of [d[k]] returns, without the store. *)
Definition peek (d : gmap Z V) (k : Z) : V := default default_factory (d !! k).
End defaultdict.

(** ** Constants of the two files *)

Definition REQUEST_LIMIT : Z := 3.
Definition INACTIVITY_TIMEOUT : Z := 1800.
Definition max_length : nat := 4096.

(** ** Messages exchanged with the backend *)

Inductive Role := system | user | assistant.

Record Message := { role : Role; content : text }.

#[global] Instance Role_eq_dec : EqDecision Role.
Proof. solve_decision. Defined.

#[global] Instance Message_eq_dec : EqDecision Message.
Proof. solve_decision. Defined.

(** ** The trace of a handler *)

(** The fixed texts of the two files, and the chunks of a cleaned answer. *)
Inductive Reply :=
| WELCOME
| RESET_DONE
| NO_HISTORY
| AUTO_RESET
| RATE_LIMIT_EXCEEDED
| THINKING
| ERROR_MESSAGE
| Chunk (chunk : text).

Inductive Effect :=
| reply_text (r : Reply)
| create (messages : list Message).

(** What [client.chat.completions.create(...)] followed by
    [response.choices[0].message.content] yields: an exception, or a text. *)
Inductive Backend := Raises | Content (bot_response : text).

(** ** [str.replace], slices and [range] *)

Fixpoint startswith (s old : text) {struct old} : bool :=
  match old, s with
  | [], _ => true
  | _ :: _, [] => false
  | a :: old', c :: s' => bool_decide (a = c) && startswith s' old'
  end.

(** [s.replace(old, new)] for a non-empty [old]: the occurrences of [old] are
    found scanning from the left, an occurrence found is replaced and the
    scan resumes behind it.  [skip] counts the characters of the occurrence
    that are still to be passed over. *)
Fixpoint replace_from (old new : text) (skip : nat) (s : text) : text :=
  match s with
  | [] => []
  | c :: s' =>
      match skip with
      | S k => replace_from old new k s'
      | O =>
          if startswith s old
          then new ++ replace_from old new (pred (length old)) s'
          else c :: replace_from old new O s'
      end
  end.

(** With an empty [old], Python puts [new] before every character and at
    the end. *)
Definition replace (s old new : text) : text :=
  match old with
  | [] => new ++ flat_map (fun c => c :: new) s
  | _ :: _ => replace_from old new O s
  end.

(** [l[-n:]] for [n > 0] *)
Definition last_n {A} (n : nat) (l : list A) : list A := drop (length l - n) l.

(** [range(0, stop, step)] *)
Definition range (stop step : nat) : list nat :=
  map (fun k => (k * step)%nat) (seq 0 (Nat.div (stop + pred step) step)).

(** [clean_response = bot_response.replace("\\boxed{", "").replace("}", "")] *)
Definition clean (bot_response : text) : text :=
  replace (replace bot_response (str "\boxed{") []) (str "}") [].

(** The loop that sends the answer in pieces of [max_length] characters. *)
Definition send_chunks (clean_response : text) : list Effect :=
  map (fun i => reply_text (Chunk (take max_length (drop i clean_response))))
      (range (length clean_response) max_length).

(** ** Rate limiting (the same lines in both files) *)

Inductive Decision := Allowed | Denied.

(** [bot.py] 49-57, [bot2.0.py] 76-84, on the two dictionaries
    [USER_REQUEST_COUNT] and [LAST_REQUEST_TIME]. *)
Definition rate_limit (user_id current_time : Z) (count last : gmap Z Z)
  : Decision * gmap Z Z * gmap Z Z :=
  let '(t, last) := getitem 0 last user_id in
  if bool_decide (current_time - t < 60) then
    let '(n, count) := getitem 0 count user_id in
    if bool_decide (n >= REQUEST_LIMIT) then (Denied, count, last)
    else
      let '(n, count) := getitem 0 count user_id in
      (Allowed, setitem count user_id (n + 1), last)
  else
    let count := setitem count user_id 0 in
    let last := setitem last user_id current_time in
    let '(n, count) := getitem 0 count user_id in
    (Allowed, setitem count user_id (n + 1), last).

(** [d[k].append(m)] on a [defaultdict(list)] *)
Definition append (d : gmap Z (list Message)) (k : Z) (m : Message)
  : gmap Z (list Message) :=
  let '(l, d) := getitem [] d k in setitem d k (l ++ [m]).

(** One text message: the backend's behaviour, the text, the clock reading. *)
Definition Call : Type := (list Message -> Backend) * text * Z.

(** ** [bot.py]: rate limiting only, no conversation memory *)

Module Bot.

Record Globals := {
  USER_REQUEST_COUNT : gmap Z Z;
  LAST_REQUEST_TIME : gmap Z Z
}.

Definition initial : Globals :=
  {| USER_REQUEST_COUNT := ∅; LAST_REQUEST_TIME := ∅ |}.

Definition SYSTEM : Message :=
  {| role := system;
     content := str "You are a helpful assistant. Always respond in clear plain text without any special formatting, boxes, or markdown." |}.

Definition handle_message (backend : list Message -> Backend)
    (user_id : Z) (message_text : text) (current_time : Z) (g : Globals)
  : Globals * list Effect :=
  match rate_limit user_id current_time
          (USER_REQUEST_COUNT g) (LAST_REQUEST_TIME g) with
  | (Denied, count, last) =>
      ({| USER_REQUEST_COUNT := count; LAST_REQUEST_TIME := last |},
       [reply_text RATE_LIMIT_EXCEEDED])
  | (Allowed, count, last) =>
      let g := {| USER_REQUEST_COUNT := count; LAST_REQUEST_TIME := last |} in
      let messages := [SYSTEM; {| role := user; content := message_text |}] in
      let sent := [reply_text THINKING; create messages] in
      match backend messages with
      | Raises => (g, sent ++ [reply_text ERROR_MESSAGE])
      | Content bot_response => (g, sent ++ send_chunks (clean bot_response))
      end
  end.

Definition count_of (g : Globals) (user_id : Z) : Z :=
  peek 0 (USER_REQUEST_COUNT g) user_id.
Definition window_start (g : Globals) (user_id : Z) : Z :=
  peek 0 (LAST_REQUEST_TIME g) user_id.

(** The calls of [handle_message] for one user, one after the other, with
    the trace of each. *)
Fixpoint converse (user_id : Z) (calls : list Call) (g : Globals)
  : Globals * list (list Effect) :=
  match calls with
  | [] => (g, [])
  | (backend, message_text, current_time) :: calls =>
      let '(g, trace) :=
        handle_message backend user_id message_text current_time g in
      let '(g, traces) := converse user_id calls g in
      (g, trace :: traces)
  end.

End Bot.

(** ** [bot2.0.py]: rate limiting and per-user conversation history *)

Module Bot2.

Record Globals := {
  USER_REQUEST_COUNT : gmap Z Z;
  LAST_REQUEST_TIME : gmap Z Z;
  CONVERSATIONS : gmap Z (list Message);
  LAST_ACTIVITY : gmap Z Z
}.

Definition initial : Globals :=
  {| USER_REQUEST_COUNT := ∅; LAST_REQUEST_TIME := ∅;
     CONVERSATIONS := ∅; LAST_ACTIVITY := ∅ |}.

Definition SYSTEM : Message :=
  {| role := system;
     content := str "You are a helpful assistant. Always reply in plain text." |}.

(** [reset], lines 52-60; [now] is the clock reading of line 57. *)
Definition reset (user_id now : Z) (g : Globals) : Globals * list Effect :=
  if contains (CONVERSATIONS g) user_id then
    ({| USER_REQUEST_COUNT := USER_REQUEST_COUNT g;
        LAST_REQUEST_TIME := LAST_REQUEST_TIME g;
        CONVERSATIONS := setitem (CONVERSATIONS g) user_id [];
        LAST_ACTIVITY := setitem (LAST_ACTIVITY g) user_id now |},
     [reply_text RESET_DONE])
  else (g, [reply_text NO_HISTORY]).

(** Lines 68-73: the inactivity check, whose second operand is only
    evaluated when the first holds, and the update of [LAST_ACTIVITY]. *)
Definition auto_reset (user_id current_time : Z)
    (conversations : gmap Z (list Message)) (activity : gmap Z Z)
  : bool * gmap Z (list Message) * gmap Z Z :=
  let '(t, activity) := getitem 0 activity user_id in
  let '(expired, conversations) :=
    if bool_decide (current_time - t > INACTIVITY_TIMEOUT) then
      let '(h, conversations) := getitem [] conversations user_id in
      if bool_decide (h <> []) then (true, setitem conversations user_id [])
      else (false, conversations)
    else (false, conversations) in
  (expired, conversations, setitem activity user_id current_time).

(** Lines 119-121. *)
Definition trim (user_id : Z) (conversations : gmap Z (list Message))
  : gmap Z (list Message) :=
  let '(h, conversations) := getitem [] conversations user_id in
  if bool_decide (20 < length h)%nat then
    let '(h, conversations) := getitem [] conversations user_id in
    setitem conversations user_id (last_n 20 h)
  else conversations.

(** Lines 62-133. *)
Definition handle_message (backend : list Message -> Backend)
    (user_id : Z) (user_message : text) (current_time : Z) (g : Globals)
  : Globals * list Effect :=
  let '(expired, conversations, activity) :=
    auto_reset user_id current_time (CONVERSATIONS g) (LAST_ACTIVITY g) in
  let notice := if expired then [reply_text AUTO_RESET] else [] in
  match rate_limit user_id current_time
          (USER_REQUEST_COUNT g) (LAST_REQUEST_TIME g) with
  | (Denied, count, last) =>
      ({| USER_REQUEST_COUNT := count; LAST_REQUEST_TIME := last;
          CONVERSATIONS := conversations; LAST_ACTIVITY := activity |},
       notice ++ [reply_text RATE_LIMIT_EXCEEDED])
  | (Allowed, count, last) =>
      let conversations :=
        append conversations user_id
          {| role := user; content := user_message |} in
      let '(h, conversations) := getitem [] conversations user_id in
      let messages := SYSTEM :: h in
      let sent := notice ++ [reply_text THINKING; create messages] in
      match backend messages with
      | Raises =>
          ({| USER_REQUEST_COUNT := count; LAST_REQUEST_TIME := last;
              CONVERSATIONS := conversations; LAST_ACTIVITY := activity |},
           sent ++ [reply_text ERROR_MESSAGE])
      | Content bot_response =>
          let conversations :=
            append conversations user_id
              {| role := assistant; content := bot_response |} in
          let clean_response := clean bot_response in
          ({| USER_REQUEST_COUNT := count; LAST_REQUEST_TIME := last;
              CONVERSATIONS := trim user_id conversations;
              LAST_ACTIVITY := activity |},
           sent ++ send_chunks clean_response)
      end
  end.

(** The updates the dispatcher of [main] hands to the handlers, each with
    the clock reading and, for a text, the backend's behaviour. *)
Inductive Update :=
| Start (user_id : Z)
| Reset (user_id now : Z)
| Text (backend : list Message -> Backend)
       (user_id : Z) (user_message : text) (current_time : Z).

Definition dispatch (u : Update) (g : Globals) : Globals * list Effect :=
  match u with
  | Start _ => (g, [reply_text WELCOME])
  | Reset user_id now => reset user_id now g
  | Text backend user_id user_message current_time =>
      handle_message backend user_id user_message current_time g
  end.

(** The globals after a sequence of updates, and everything sent. *)
Fixpoint run (us : list Update) (g : Globals) : Globals * list Effect :=
  match us with
  | [] => (g, [])
  | u :: us =>
      let '(g, sent) := dispatch u g in
      let '(g, sent') := run us g in
      (g, sent ++ sent')
  end.

Definition reachable (g : Globals) : Prop :=
  exists us, (run us initial).1 = g.

(** The per-user readings: what a read of each dictionary returns. *)
Definition count_of (g : Globals) (user_id : Z) : Z :=
  peek 0 (USER_REQUEST_COUNT g) user_id.
Definition window_start (g : Globals) (user_id : Z) : Z :=
  peek 0 (LAST_REQUEST_TIME g) user_id.
Definition history (g : Globals) (user_id : Z) : list Message :=
  peek [] (CONVERSATIONS g) user_id.
Definition last_activity (g : Globals) (user_id : Z) : Z :=
  peek 0 (LAST_ACTIVITY g) user_id.
Definition has_session (g : Globals) (user_id : Z) : bool :=
  contains (CONVERSATIONS g) user_id.

End Bot2.


(** ** Reading a trace *)

(** The text shown to the user as the answer: the chunks, in order. *)
Fixpoint displayed (trace : list Effect) : text :=
  match trace with
  | [] => []
  | reply_text (Chunk chunk) :: trace => chunk ++ displayed trace
  | _ :: trace => displayed trace
  end.

(** The requests made to the backend. *)
Fixpoint requests (trace : list Effect) : list (list Message) :=
  match trace with
  | [] => []
  | create messages :: trace => messages :: requests trace
  | _ :: trace => requests trace
  end.

Definition sends (r : Reply) (trace : list Effect) : Prop :=
  In (reply_text r) trace.

(** [old] occurs somewhere in [s]. *)
Fixpoint occurs (s old : text) : bool :=
  match s with
  | [] => startswith [] old
  | _ :: s' => startswith s old || occurs s' old
  end.

(** ** One user's readings and their transition

    [session_step] is what one text message does to the four readings of its
    sender; [handle_message_view] below proves that [Bot2.handle_message]
    does exactly this on the dictionaries. *)

Record View := {
  v_count : Z;
  v_start : Z;
  v_history : list Message;
  v_activity : Z
}.

Definition view (g : Bot2.Globals) (user_id : Z) : View :=
  {| v_count := Bot2.count_of g user_id;
     v_start := Bot2.window_start g user_id;
     v_history := Bot2.history g user_id;
     v_activity := Bot2.last_activity g user_id |}.

Definition is_expired (current_time : Z) (v : View) : bool :=
  bool_decide (current_time - v_activity v > INACTIVITY_TIMEOUT)
  && bool_decide (v_history v <> []).

Definition window_step (current_time n t : Z) : Decision * Z * Z :=
  if bool_decide (current_time - t < 60) then
    if bool_decide (n >= REQUEST_LIMIT) then (Denied, n, t)
    else (Allowed, n + 1, t)
  else (Allowed, 1, current_time).

Definition session_step (backend : list Message -> Backend)
    (user_message : text) (current_time : Z) (v : View)
  : View * list Effect :=
  let expired := is_expired current_time v in
  let h := if expired then [] else v_history v in
  let notice := if expired then [reply_text AUTO_RESET] else [] in
  match window_step current_time (v_count v) (v_start v) with
  | (Denied, n, t) =>
      ({| v_count := n; v_start := t; v_history := h;
          v_activity := current_time |},
       notice ++ [reply_text RATE_LIMIT_EXCEEDED])
  | (Allowed, n, t) =>
      let h := h ++ [{| role := user; content := user_message |}] in
      let messages := Bot2.SYSTEM :: h in
      let sent := notice ++ [reply_text THINKING; create messages] in
      match backend messages with
      | Raises =>
          ({| v_count := n; v_start := t; v_history := h;
              v_activity := current_time |},
           sent ++ [reply_text ERROR_MESSAGE])
      | Content bot_response =>
          ({| v_count := n; v_start := t;
              v_history :=
                last_n 20 (h ++ [{| role := assistant; content := bot_response |}]);
              v_activity := current_time |},
           sent ++ send_chunks (clean bot_response))
      end
  end.

(** ** Conversations of one user *)

(** The calls of [handle_message] for one user, one after the other, with
    the trace of each. *)
Fixpoint converse (user_id : Z) (calls : list Call) (g : Bot2.Globals)
  : Bot2.Globals * list (list Effect) :=
  match calls with
  | [] => (g, [])
  | (backend, user_message, current_time) :: calls =>
      let '(g, trace) :=
        Bot2.handle_message backend user_id user_message current_time g in
      let '(g, traces) := converse user_id calls g in
      (g, trace :: traces)
  end.

Fixpoint session_steps (calls : list Call) (v : View)
  : View * list (list Effect) :=
  match calls with
  | [] => (v, [])
  | (backend, user_message, current_time) :: calls =>
      let '(v, trace) := session_step backend user_message current_time v in
      let '(v, traces) := session_steps calls v in
      (v, trace :: traces)
  end.

(** The decision a trace shows: a denied message is answered with the
    rate-limit text and nothing else happens. *)
Definition denied (trace : list Effect) : bool :=
  existsb (fun e => match e with
                    | reply_text RATE_LIMIT_EXCEEDED => true
                    | _ => false
                    end) trace.

Definition decision (trace : list Effect) : Decision :=
  if denied trace then Denied else Allowed.

Definition auto_reset_reported (trace : list Effect) : bool :=
  existsb (fun e => match e with
                    | reply_text AUTO_RESET => true
                    | _ => false
                    end) trace.

Definition failed (trace : list Effect) : bool :=
  existsb (fun e => match e with
                    | reply_text ERROR_MESSAGE => true
                    | _ => false
                    end) trace.

(** A request/reply pair that went through: admitted, answered, and not
    preceded by an inactivity reset. *)
Definition successful (trace : list Effect) : bool :=
  negb (denied trace) && negb (failed trace) && negb (auto_reset_reported trace).

(** A backend that answers [bot_response], and one that is down. *)
Definition answers (bot_response : text) : list Message -> Backend :=
  fun _ => Content bot_response.

Definition down : list Message -> Backend := fun _ => Raises.

(** A request/reply pair: clock reading, user text, backend answer. *)
Definition Exchange : Type := Z * text * text.

Definition call_of (x : Exchange) : Call :=
  let '(current_time, user_message, bot_response) := x in
  (answers bot_response, user_message, current_time).

Definition turns_of (x : Exchange) : list Message :=
  let '(_, user_message, bot_response) := x in
  [{| role := user; content := user_message |};
   {| role := assistant; content := bot_response |}].

(** ** Further readings of traces and globals *)

(** The chunks of an answer, one per [reply_text] of the sending loop. *)
Fixpoint chunk_texts (trace : list Effect) : list text :=
  match trace with
  | [] => []
  | reply_text (Chunk chunk) :: trace => chunk :: chunk_texts trace
  | _ :: trace => chunk_texts trace
  end.

(** The user an update comes from ([update.effective_user.id]). *)
Definition sender (u : Bot2.Update) : Z :=
  match u with
  | Bot2.Start user_id => user_id
  | Bot2.Reset user_id _ => user_id
  | Bot2.Text _ user_id _ _ => user_id
  end.

(** All a handler can find out about one user: the four readings, and
    whether [CONVERSATIONS] has the key. *)
Definition observed (g : Bot2.Globals) (user_id : Z) : View * bool :=
  (view g user_id, Bot2.has_session g user_id).

(** A turn as [handle_message] stores it: written by the user or by the
    backend. *)
Definition stored_turn (m : Message) : Prop := role m <> system.

(** A backend that answers every request. *)
Definition always_answers (backend : list Message -> Backend) : Prop :=
  forall messages, exists bot_response, backend messages = Content bot_response.

(** An update whose backend, if it has one, is as [ok] says. *)
Definition on_backend (ok : (list Message -> Backend) -> Prop)
    (u : Bot2.Update) : Prop :=
  match u with
  | Bot2.Text backend _ _ _ => ok backend
  | _ => True
  end.

Definition answered (u : Bot2.Update) : Prop := on_backend always_answers u.

(** What is sent in answer to the updates of one user, in a run of
    updates of many users. *)
Fixpoint seen_by (user_id : Z) (us : list Bot2.Update) (g : Bot2.Globals)
  : list Effect :=
  match us with
  | [] => []
  | u :: us =>
      let '(g, sent) := Bot2.dispatch u g in
      (if bool_decide (sender u = user_id) then sent else [])
      ++ seen_by user_id us g
  end.

(** Messages none of which arrives more than [INACTIVITY_TIMEOUT] seconds
    after the one before it, the first counted from [last]. *)
Fixpoint paced (last : Z) (calls : list Call) : Prop :=
  match calls with
  | [] => True
  | c :: calls => c.2 - last <= INACTIVITY_TIMEOUT /\ paced c.2 calls
  end.

(** A backend that raises on every request. *)
Definition always_raises (backend : list Message -> Backend) : Prop :=
  forall messages, backend messages = Raises.

(** * Facts *)

(** ** [defaultdict] *)

Section defaultdict_facts.
Context {V : Type} (dflt : V).
Implicit Types (d : gmap Z V) (k : Z).

Lemma getitem_fst d k : (getitem dflt d k).1 = peek dflt d k.
Proof. unfold getitem, peek. by destruct (d !! k). Qed.

Lemma peek_getitem d k k' : peek dflt (getitem dflt d k).2 k' = peek dflt d k'.
Proof.
  unfold getitem, peek. destruct (d !! k) eqn:E; simpl; [done|].
  destruct (decide (k = k')) as [->|].
  - by rewrite lookup_insert_eq, E.
  - by rewrite lookup_insert_ne.
Qed.

Lemma lookup_getitem_ne d k k' : k <> k' -> (getitem dflt d k).2 !! k' = d !! k'.
Proof.
  intros. unfold getitem. destruct (d !! k); simpl; [done|].
  by rewrite lookup_insert_ne.
Qed.

Lemma contains_getitem d k : contains (getitem dflt d k).2 k = true.
Proof.
  unfold getitem, contains. destruct (d !! k) eqn:E; simpl.
  - rewrite E. by apply bool_decide_eq_true_2.
  - rewrite lookup_insert_eq. by apply bool_decide_eq_true_2.
Qed.

Lemma peek_setitem d k v : peek dflt (setitem d k v) k = v.
Proof. unfold peek, setitem. by rewrite lookup_insert_eq. Qed.

Lemma lookup_setitem_ne d k k' v : k <> k' -> setitem d k v !! k' = d !! k'.
Proof. intros. unfold setitem. by rewrite lookup_insert_ne. Qed.

Lemma contains_setitem d k v : contains (setitem d k v) k = true.
Proof.
  unfold contains, setitem. rewrite lookup_insert_eq.
  by apply bool_decide_eq_true_2.
Qed.

Lemma peek_lookup d d' k : d' !! k = d !! k -> peek dflt d' k = peek dflt d k.
Proof. unfold peek. by intros ->. Qed.

End defaultdict_facts.

Lemma getitem_spec {V} (dflt : V) (d : gmap Z V) (k : Z) :
  exists d',
    getitem dflt d k = (peek dflt d k, d')
    /\ (forall k', peek dflt d' k' = peek dflt d k')
    /\ (forall k', k <> k' -> d' !! k' = d !! k')
    /\ contains d' k = true.
Proof.
  exists (getitem dflt d k).2. repeat split.
  - rewrite <- getitem_fst. by destruct (getitem dflt d k).
  - apply peek_getitem.
  - apply lookup_getitem_ne.
  - apply contains_getitem.
Qed.

(** Destructs the next [d[k]] of the goal into its value and its store. *)
Ltac read_item :=
  match goal with
  | |- context [getitem ?dflt ?d ?k] =>
      let d' := fresh "d" in
      let Hp := fresh "Hpeek" in
      let Hl := fresh "Hframe" in
      let Hc := fresh "Hin" in
      destruct (getitem_spec dflt d k) as (d' & -> & Hp & Hl & Hc);
      cbv beta iota
  end.

(** Rewrites the readings of stores produced by [d[k]] and [d[k] = v]. *)
Ltac dd_simpl :=
  repeat match goal with
    | |- context [peek _ (setitem _ ?k _) ?k] => rewrite peek_setitem
    | |- context [setitem _ _ _ !! _] => rewrite lookup_setitem_ne by done
    | H : forall k', peek _ ?d k' = _ |- context [peek _ ?d _] => rewrite H
    | H : forall k', _ <> k' -> ?d !! k' = _ |- context [?d !! _] =>
        rewrite H by done
    end.

(** ** The blocks of [handle_message] on one user's readings *)

Lemma rate_limit_spec user_id current_time (count last : gmap Z Z) :
  exists count' last',
    rate_limit user_id current_time count last
    = ((window_step current_time (peek 0 count user_id) (peek 0 last user_id)).1.1,
       count', last')
    /\ peek 0 count' user_id
       = (window_step current_time (peek 0 count user_id) (peek 0 last user_id)).1.2
    /\ peek 0 last' user_id
       = (window_step current_time (peek 0 count user_id) (peek 0 last user_id)).2
    /\ (forall k, user_id <> k -> count' !! k = count !! k /\ last' !! k = last !! k).
Proof.
  unfold rate_limit, window_step. read_item.
  case_bool_decide.
  - read_item. case_bool_decide.
    + eexists _, _. split; [reflexivity|]. simpl. by repeat split; dd_simpl.
    + read_item. eexists _, _. split; [reflexivity|]. simpl.
      by repeat split; dd_simpl.
  - read_item. eexists _, _. split; [reflexivity|]. simpl.
    by repeat split; dd_simpl.
Qed.

Lemma auto_reset_spec user_id current_time
    (conversations : gmap Z (list Message)) (activity : gmap Z Z) :
  let expired :=
    bool_decide (current_time - peek 0 activity user_id > INACTIVITY_TIMEOUT)
    && bool_decide (peek [] conversations user_id <> []) in
  exists conversations' activity',
    Bot2.auto_reset user_id current_time conversations activity
    = (expired, conversations', activity')
    /\ peek [] conversations' user_id
       = (if expired then [] else peek [] conversations user_id)
    /\ peek 0 activity' user_id = current_time
    /\ (forall k, user_id <> k ->
          conversations' !! k = conversations !! k
          /\ activity' !! k = activity !! k)
    /\ (contains conversations user_id = true ->
        contains conversations' user_id = true).
Proof.
  unfold Bot2.auto_reset. read_item. case_bool_decide; simpl.
  - read_item. case_bool_decide; simpl.
    + eexists _, _. split; [reflexivity|].
      repeat split; intros; dd_simpl; auto using contains_setitem.
    + eexists _, _. split; [reflexivity|].
      by repeat split; intros; dd_simpl.
  - eexists _, _. split; [reflexivity|].
    by repeat split; intros; dd_simpl.
Qed.

Lemma append_spec (d : gmap Z (list Message)) k m :
  peek [] (append d k m) k = peek [] d k ++ [m]
  /\ (forall k', k <> k' -> append d k m !! k' = d !! k')
  /\ contains (append d k m) k = true.
Proof.
  unfold append. read_item.
  repeat split; intros; dd_simpl; auto using contains_setitem.
Qed.

Lemma last_n_short {A} (n : nat) (l : list A) :
  (length l <= n)%nat -> last_n n l = l.
Proof. intros. unfold last_n. by replace (length l - n)%nat with O by lia. Qed.

Lemma trim_spec k (d : gmap Z (list Message)) :
  peek [] (Bot2.trim k d) k = last_n 20 (peek [] d k)
  /\ (forall k', k <> k' -> Bot2.trim k d !! k' = d !! k')
  /\ (contains d k = true -> contains (Bot2.trim k d) k = true).
Proof.
  unfold Bot2.trim. read_item. case_bool_decide.
  - read_item. repeat split; intros; dd_simpl; auto using contains_setitem.
  - repeat split; intros; dd_simpl; auto.
    rewrite last_n_short; [done|lia].
Qed.

(** ** [handle_message] on the dictionaries is [session_step] on the sender *)

Lemma handle_message_view backend user_id user_message current_time g :
  let r := Bot2.handle_message backend user_id user_message current_time g in
  (view r.1 user_id, r.2)
  = session_step backend user_message current_time (view g user_id).
Proof.
  unfold Bot2.handle_message, session_step, view, is_expired.
  unfold Bot2.count_of, Bot2.window_start, Bot2.history, Bot2.last_activity.
  simpl.
  destruct (auto_reset_spec user_id current_time
              (Bot2.CONVERSATIONS g) (Bot2.LAST_ACTIVITY g))
    as (C & A & -> & HC & HA & _ & _).
  destruct (rate_limit_spec user_id current_time
              (Bot2.USER_REQUEST_COUNT g) (Bot2.LAST_REQUEST_TIME g))
    as (N & L & -> & HN & HL & _).
  destruct (window_step _ _ _) as [[[] n] t]; simpl in *.
  - destruct (append_spec C user_id {| role := user; content := user_message |})
      as (Hu & _ & _).
    read_item. rewrite Hu, HC.
    destruct (backend _) as [|bot_response]; simpl.
    + by rewrite Hpeek, Hu, HC, HN, HL, HA.
    + destruct (append_spec d user_id
                  {| role := assistant; content := bot_response |})
        as (Ha & _ & _).
      destruct (trim_spec user_id
                  (append d user_id
                     {| role := assistant; content := bot_response |}))
        as (Ht & _ & _).
      by rewrite Ht, Ha, Hpeek, Hu, HC, HN, HL, HA.
  - by rewrite HC, HN, HL, HA.
Qed.

Lemma handle_message_other backend user_id user_message current_time g k :
  user_id <> k ->
  view (Bot2.handle_message backend user_id user_message current_time g).1 k
  = view g k.
Proof.
  intros Hk. unfold Bot2.handle_message, view.
  unfold Bot2.count_of, Bot2.window_start, Bot2.history, Bot2.last_activity.
  destruct (auto_reset_spec user_id current_time
              (Bot2.CONVERSATIONS g) (Bot2.LAST_ACTIVITY g))
    as (C & A & -> & _ & _ & HCA & _).
  destruct (rate_limit_spec user_id current_time
              (Bot2.USER_REQUEST_COUNT g) (Bot2.LAST_REQUEST_TIME g))
    as (N & L & -> & _ & _ & HNL).
  destruct (HCA k Hk) as [HC HA]. destruct (HNL k Hk) as [HN HL].
  assert (forall d m, peek [] (append d user_id m) k = peek [] d k) as Happ.
  { intros d m. apply peek_lookup. by apply append_spec. }
  assert (forall d, peek [] (Bot2.trim user_id d) k = peek [] d k) as Htrim.
  { intros d. apply peek_lookup. by apply trim_spec. }
  destruct (window_step _ _ _) as [[[] n] t]; simpl.
  - read_item. destruct (backend _); simpl;
      rewrite ?Htrim, ?Happ, ?Hpeek, ?Happ;
      by rewrite (peek_lookup _ _ _ _ HC), (peek_lookup _ _ _ _ HA),
           (peek_lookup _ _ _ _ HN), (peek_lookup _ _ _ _ HL).
  - by rewrite (peek_lookup _ _ _ _ HC), (peek_lookup _ _ _ _ HA),
         (peek_lookup _ _ _ _ HN), (peek_lookup _ _ _ _ HL).
Qed.

(** ** [reset] on one user's readings *)

Lemma reset_view user_id now g :
  let r := Bot2.reset user_id now g in
  if Bot2.has_session g user_id then
    r.2 = [reply_text RESET_DONE]
    /\ view r.1 user_id
       = {| v_count := Bot2.count_of g user_id;
            v_start := Bot2.window_start g user_id;
            v_history := [];
            v_activity := now |}
  else r = (g, [reply_text NO_HISTORY]).
Proof.
  unfold Bot2.reset, Bot2.has_session, view.
  unfold Bot2.count_of, Bot2.window_start, Bot2.history, Bot2.last_activity.
  destruct (contains _ _); simpl; [|done].
  by rewrite !peek_setitem.
Qed.

Lemma reset_other user_id now g k :
  user_id <> k -> view (Bot2.reset user_id now g).1 k = view g k.
Proof.
  intros Hk. unfold Bot2.reset, view.
  unfold Bot2.count_of, Bot2.window_start, Bot2.history, Bot2.last_activity.
  destruct (contains _ _); simpl; [|done].
  f_equal; apply peek_lookup; by apply lookup_setitem_ne.
Qed.

(** ** Traces *)

Lemma displayed_app t1 t2 : displayed (t1 ++ t2) = displayed t1 ++ displayed t2.
Proof.
  induction t1 as [|[[]|] t1 IH]; simpl; rewrite ?IH; try done.
  by rewrite <- app_assoc.
Qed.

Lemma requests_app t1 t2 : requests (t1 ++ t2) = requests t1 ++ requests t2.
Proof. induction t1 as [|[] t1 IH]; simpl; by rewrite ?IH. Qed.

Lemma range_cover stop step :
  (0 < step)%nat ->
  (stop <= (stop + pred step) / step * step)%nat.
Proof.
  intros Hs.
  pose proof (Nat.div_mod_eq (stop + pred step) step) as Hd.
  pose proof (Nat.mod_upper_bound (stop + pred step) step) as Hm.
  nia.
Qed.

Lemma displayed_chunks (s : text) (m q : nat) :
  displayed
    (map (fun i => reply_text (Chunk (take m (drop i s))))
         (map (fun k => (k * m)%nat) (seq 0 q)))
  = take (q * m) s.
Proof.
  induction q as [|q IH]; [done|].
  rewrite seq_S, !map_app, displayed_app, IH. simpl.
  rewrite app_nil_r, take_take_drop. f_equal. lia.
Qed.

Lemma displayed_send_chunks (s : text) : displayed (send_chunks s) = s.
Proof.
  unfold send_chunks, range. rewrite displayed_chunks.
  apply take_ge. apply range_cover. unfold max_length. lia.
Qed.

Lemma send_chunks_only_chunks (s : text) :
  Forall (fun e => exists c, e = reply_text (Chunk c)) (send_chunks s).
Proof.
  unfold send_chunks.
  induction (range _ _) as [|i l IH]; simpl; constructor; eauto.
Qed.

Lemma existsb_chunks (f : Effect -> bool) (s : text) :
  (forall c, f (reply_text (Chunk c)) = false) ->
  existsb f (send_chunks s) = false.
Proof.
  intros Hf. pose proof (send_chunks_only_chunks s) as Hall.
  induction Hall as [|e l [c ->] _ IH]; [done|].
  simpl. by rewrite Hf, IH.
Qed.

Lemma requests_send_chunks (s : text) : requests (send_chunks s) = [].
Proof.
  pose proof (send_chunks_only_chunks s) as Hall.
  induction Hall as [|e l [c ->] _ IH]; [done|]. done.
Qed.

Ltac trace_simpl :=
  unfold decision, successful, denied, failed, auto_reset_reported;
  simpl;
  rewrite ?existsb_app, ?displayed_app, ?requests_app;
  rewrite ?existsb_chunks by (intros; reflexivity);
  rewrite ?displayed_send_chunks, ?requests_send_chunks;
  simpl.

Lemma session_step_decision backend user_message current_time v :
  let r := session_step backend user_message current_time v in
  decision r.2 = (window_step current_time (v_count v) (v_start v)).1.1
  /\ v_count r.1 = (window_step current_time (v_count v) (v_start v)).1.2
  /\ v_start r.1 = (window_step current_time (v_count v) (v_start v)).2.
Proof.
  unfold session_step.
  destruct (window_step _ _ _) as [[[] n] t];
    [destruct (backend _)|]; destruct (is_expired _ _); by trace_simpl.
Qed.

Lemma converse_view user_id calls : forall g,
  let r := converse user_id calls g in
  (view r.1 user_id, r.2) = session_steps calls (view g user_id).
Proof.
  induction calls as [|[[backend user_message] current_time] calls IH];
    intros g; [done|].
  simpl.
  pose proof (handle_message_view backend user_id user_message current_time g)
    as Hstep.
  destruct (Bot2.handle_message _ _ _ _ _) as [g1 trace]. simpl in Hstep.
  rewrite <- Hstep.
  specialize (IH g1). simpl in IH.
  destruct (converse _ _ _) as [g2 traces]. simpl in IH.
  by rewrite <- IH.
Qed.

(** ** The window *)

Lemma in_window_decisions rest : forall v (i : nat) trace,
  Forall (fun c : Call => c.2 - v_start v < 60) rest ->
  (session_steps rest v).2 !! i = Some trace ->
  decision trace
  = if bool_decide (v_count v + Z.of_nat i < REQUEST_LIMIT)
    then Allowed else Denied.
Proof.
  unfold REQUEST_LIMIT.
  induction rest as [|[[backend user_message] current_time] rest IH];
    intros v i trace Hin Hi; [done|].
  apply Forall_cons in Hin as [Ht Hin]. simpl in Ht, Hi.
  destruct (session_step_decision backend user_message current_time v)
    as (Hd & Hn & Hs).
  destruct (session_step _ _ _ _) as [v1 trace1]. simpl in Hd, Hn, Hs.
  pose proof (IH v1) as IH1.
  destruct (session_steps rest v1) as [v2 traces]. simpl in Hi, IH1.
  unfold window_step, REQUEST_LIMIT in *.
  rewrite bool_decide_eq_true_2 in Hd, Hn, Hs by done.
  destruct i as [|i]; simpl in Hi.
  - injection Hi as <-. rewrite Hd.
    repeat case_bool_decide; simpl; done || lia.
  - rewrite (IH1 i trace); [|by case_bool_decide; simpl in Hs; rewrite Hs|done].
    repeat case_bool_decide; simpl in *; done || lia.
Qed.

Lemma window_step_bound current_time n t :
  n <= REQUEST_LIMIT -> (window_step current_time n t).1.2 <= REQUEST_LIMIT.
Proof.
  unfold window_step, REQUEST_LIMIT.
  intros. repeat case_bool_decide; simpl; lia.
Qed.

Lemma dispatch_count_bound u g :
  (forall k, Bot2.count_of g k <= REQUEST_LIMIT) ->
  forall k, Bot2.count_of (Bot2.dispatch u g).1 k <= REQUEST_LIMIT.
Proof.
  intros Hg k.
  destruct u as [user_id|user_id now|backend user_id user_message current_time];
    simpl; [apply Hg| |];
    change (Bot2.count_of ?g k) with (v_count (view g k)).
  - destruct (decide (user_id = k)) as [->|Hk].
    + pose proof (reset_view k now g) as Hr. simpl in Hr.
      destruct (Bot2.has_session g k).
      * destruct Hr as [_ ->]. apply Hg.
      * rewrite Hr. apply Hg.
    + rewrite reset_other by done. apply Hg.
  - destruct (decide (user_id = k)) as [->|Hk].
    + pose proof (handle_message_view backend k user_message current_time g)
        as Hv. simpl in Hv.
      destruct (session_step_decision backend user_message current_time
                  (view g k)) as (_ & Hn & _).
      rewrite <- Hv in Hn. simpl in *. rewrite Hn.
      apply window_step_bound, Hg.
    + rewrite handle_message_other by done. apply Hg.
Qed.

Lemma run_count_bound us : forall g,
  (forall k, Bot2.count_of g k <= REQUEST_LIMIT) ->
  forall k, Bot2.count_of (Bot2.run us g).1 k <= REQUEST_LIMIT.
Proof.
  induction us as [|u us IH]; intros g Hg k; [apply Hg|].
  simpl. pose proof (dispatch_count_bound u g Hg) as Hd.
  destruct (Bot2.dispatch u g) as [g1 sent].
  specialize (IH g1 Hd k). by destruct (Bot2.run us g1).
Qed.

(** The same block in [bot.py]. *)
Lemma Bot_handle_message_view backend user_id message_text current_time g :
  let r := Bot.handle_message backend user_id message_text current_time g in
  (decision r.2, Bot.count_of r.1 user_id, Bot.window_start r.1 user_id)
  = window_step current_time (Bot.count_of g user_id) (Bot.window_start g user_id).
Proof.
  unfold Bot.handle_message, Bot.count_of, Bot.window_start.
  destruct (rate_limit_spec user_id current_time
              (Bot.USER_REQUEST_COUNT g) (Bot.LAST_REQUEST_TIME g))
    as (N & L & -> & HN & HL & _).
  destruct (window_step _ _ _) as [[[] n] t]; simpl in *;
    [destruct (backend _)|]; trace_simpl; by rewrite HN, HL.
Qed.

Lemma Bot_in_window_decisions user_id rest : forall g (i : nat) trace,
  Forall (fun c : Call => c.2 - Bot.window_start g user_id < 60) rest ->
  (Bot.converse user_id rest g).2 !! i = Some trace ->
  decision trace
  = if bool_decide (Bot.count_of g user_id + Z.of_nat i < REQUEST_LIMIT)
    then Allowed else Denied.
Proof.
  unfold REQUEST_LIMIT.
  induction rest as [|[[backend message_text] current_time] rest IH];
    intros g i trace Hin Hi; [done|].
  apply Forall_cons in Hin as [Ht Hin]. simpl in Ht, Hi.
  pose proof (Bot_handle_message_view backend user_id message_text
                current_time g) as Hv.
  destruct (Bot.handle_message _ _ _ _ _) as [g1 trace1]. simpl in Hv.
  pose proof (IH g1) as IH1.
  destruct (Bot.converse user_id rest g1) as [g2 traces]. simpl in Hi, IH1.
  unfold window_step, REQUEST_LIMIT in Hv.
  rewrite bool_decide_eq_true_2 in Hv by done.
  case_bool_decide; injection Hv as Hd Hn Hs;
    (destruct i as [|i]; simpl in Hi;
     [ injection Hi as <-; rewrite Hd; case_bool_decide; done || lia
     | rewrite (IH1 i trace) by (done || by rewrite Hs);
       rewrite Hn; repeat case_bool_decide; done || lia ]).
Qed.

(** C1.  The messages of one user that lie within 60 seconds of one window
    start, counted from the message that opens the window (or, for a user
    never seen, from the first message while the clock is still below 60),
    are decided Allowed, Allowed, Allowed and from the fourth on Denied, in
    [bot2.0.py] and in [bot.py]; a Denied message leaves the count and the
    window start as they were; and the count of a user never exceeds
    [REQUEST_LIMIT] in a reachable state. *)
Theorem rate_window_admits_three :
  (forall g user_id (first : Call) (rest : list Call) (i : nat) trace,
      (60 <= first.2 - Bot2.window_start g user_id
       /\ Forall (fun c : Call => c.2 - first.2 < 60) rest)
      \/ (Bot2.count_of g user_id = 0
          /\ Forall (fun c : Call => c.2 - Bot2.window_start g user_id < 60)
               (first :: rest)) ->
      (converse user_id (first :: rest) g).2 !! i = Some trace ->
      decision trace = if bool_decide (i < 3)%nat then Allowed else Denied)
  /\ (forall backend user_id user_message current_time g,
        let r :=
          Bot2.handle_message backend user_id user_message current_time g in
        decision r.2 = Denied ->
        Bot2.count_of r.1 user_id = Bot2.count_of g user_id
        /\ Bot2.window_start r.1 user_id = Bot2.window_start g user_id)
  /\ (forall g user_id,
        Bot2.reachable g -> Bot2.count_of g user_id <= REQUEST_LIMIT)
  /\ (forall g user_id (first : Call) (rest : list Call) (i : nat) trace,
        (60 <= first.2 - Bot.window_start g user_id
         /\ Forall (fun c : Call => c.2 - first.2 < 60) rest)
        \/ (Bot.count_of g user_id = 0
            /\ Forall (fun c : Call => c.2 - Bot.window_start g user_id < 60)
                 (first :: rest)) ->
        (Bot.converse user_id (first :: rest) g).2 !! i = Some trace ->
        decision trace = if bool_decide (i < 3)%nat then Allowed else Denied).
Proof.
  split; [|split; [|split]].
  - intros g user_id first rest i trace [[Hopen Hin]|[Hzero Hin]] Hi.
    + destruct first as [[backend user_message] current_time].
      pose proof (converse_view user_id
                    ((backend, user_message, current_time) :: rest) g) as Hv.
      simpl in Hv, Hopen, Hin, Hi.
      destruct (Bot2.handle_message _ _ _ _ _) as [g0 trace0].
      destruct (converse user_id rest g0) as [g1 traces0].
      simpl in Hi, Hv.
      destruct (session_step_decision backend user_message current_time
                  (view g user_id)) as (Hd & Hn & Hs).
      destruct (session_step _ _ _ _) as [v1 trace1].
      pose proof (in_window_decisions rest v1) as Hrest.
      destruct (session_steps rest v1) as [v2 traces].
      injection Hv as _ -> ->.
      unfold window_step in Hd, Hn, Hs. simpl in Hd, Hn, Hs.
      rewrite bool_decide_eq_false_2 in Hd, Hn, Hs by lia.
      simpl in Hd, Hn, Hs, Hrest.
      destruct i as [|i]; simpl in Hi.
      * by injection Hi as <-.
      * rewrite (Hrest i trace); [|by rewrite Hs|done].
        rewrite Hn. unfold REQUEST_LIMIT.
        repeat case_bool_decide; done || lia.
    + pose proof (converse_view user_id (first :: rest) g) as Hv.
      cbv zeta in Hv.
      pose proof (in_window_decisions (first :: rest) (view g user_id) i trace
                    Hin) as Hdec.
      rewrite <- Hv in Hdec. rewrite (Hdec Hi). simpl.
      rewrite Hzero. unfold REQUEST_LIMIT.
      repeat case_bool_decide; done || lia.
  - intros backend user_id user_message current_time g r Hden.
    pose proof (handle_message_view backend user_id user_message
                  current_time g) as Hv.
    destruct (session_step_decision backend user_message current_time
                (view g user_id)) as (Hd & Hn & Hs).
    simpl in Hv. rewrite <- Hv in Hd, Hn, Hs. simpl in Hd, Hn, Hs.
    fold r in Hd, Hn, Hs. rewrite Hn, Hs. rewrite Hden in Hd.
    unfold window_step in *.
    repeat case_bool_decide; simpl in *; done.
  - intros g user_id [us <-].
    apply run_count_bound. intros k. by vm_compute.
  - intros g user_id first rest i trace [[Hopen Hin]|[Hzero Hin]] Hi.
    + destruct first as [[backend user_message] current_time].
      simpl in Hi, Hopen, Hin.
      pose proof (Bot_handle_message_view backend user_id user_message
                    current_time g) as Hv.
      destruct (Bot.handle_message _ _ _ _ _) as [g0 trace0]. simpl in Hv.
      pose proof (Bot_in_window_decisions user_id rest g0) as Hrest.
      destruct (Bot.converse user_id rest g0) as [g1 traces].
      simpl in Hi, Hrest.
      unfold window_step in Hv.
      rewrite bool_decide_eq_false_2 in Hv by lia.
      injection Hv as Hd Hn Hs.
      destruct i as [|i]; simpl in Hi.
      * by injection Hi as <-.
      * rewrite (Hrest i trace); [|by rewrite Hs|done].
        rewrite Hn. unfold REQUEST_LIMIT.
        repeat case_bool_decide; done || lia.
    + rewrite (Bot_in_window_decisions user_id (first :: rest) g i trace Hin Hi).
      rewrite Hzero. unfold REQUEST_LIMIT.
      repeat case_bool_decide; done || lia.
Qed.

Lemma rate_window_admits_three_witness :
  let calls : list Call :=
    [(down, str "a", 100); (down, str "b", 110);
     (down, str "c", 120); (down, str "d", 159)] in
  map decision (converse 7 calls Bot2.initial).2
  = [Allowed; Allowed; Allowed; Denied]
  /\ decision (nth 3 (converse 7 calls Bot2.initial).2 []) = Denied.
Proof.
  split; [by vm_compute|].
  destruct rate_window_admits_three as [Hseq _].
  apply (Hseq Bot2.initial 7 (down, str "a", 100)
           [(down, str "b", 110); (down, str "c", 120); (down, str "d", 159)]
           3%nat).
  - left. split; [by vm_compute|]. repeat constructor; by vm_compute.
  - by vm_compute.
Defined.

(** ** Reading [handle_message] through [session_step] *)

Lemma handle_message_readings backend user_id user_message current_time g :
  let r := Bot2.handle_message backend user_id user_message current_time g in
  let s := session_step backend user_message current_time (view g user_id) in
  Bot2.count_of r.1 user_id = v_count s.1
  /\ Bot2.window_start r.1 user_id = v_start s.1
  /\ Bot2.history r.1 user_id = v_history s.1
  /\ Bot2.last_activity r.1 user_id = v_activity s.1
  /\ r.2 = s.2.
Proof.
  intros r s.
  pose proof (handle_message_view backend user_id user_message current_time g)
    as Hv.
  cbv zeta in Hv. fold r s in Hv. by rewrite <- Hv.
Qed.

(** Replaces the readings of the globals after [handle_message] by those of
    [session_step] and splits the cases of the latter. *)
Ltac by_session_step backend user_id user_message current_time g :=
  cbv zeta;
  let Hn := fresh in
  let Hs := fresh in
  let Hh := fresh in
  let Ha := fresh in
  let Ht := fresh in
  destruct (handle_message_readings backend user_id user_message
              current_time g) as (Hn & Hs & Hh & Ha & Ht);
  rewrite ?Hn, ?Hs, ?Hh, ?Ha, ?Ht;
  clear Hn Hs Hh Ha Ht;
  unfold session_step, window_step, is_expired, view;
  unfold REQUEST_LIMIT, INACTIVITY_TIMEOUT;
  simpl.

(** C9.  A message that arrives 60 seconds or more after the window start of
    its sender is Allowed, starts a window at its own arrival time and leaves
    the count at 1, in [bot2.0.py] and in [bot.py]; the bound is inclusive. *)
Theorem fresh_window_after_sixty_seconds :
  (forall backend user_id user_message current_time g,
      let r :=
        Bot2.handle_message backend user_id user_message current_time g in
      60 <= current_time - Bot2.window_start g user_id ->
      decision r.2 = Allowed
      /\ Bot2.window_start r.1 user_id = current_time
      /\ Bot2.count_of r.1 user_id = 1)
  /\ (forall backend user_id message_text current_time g,
        let r :=
          Bot.handle_message backend user_id message_text current_time g in
        60 <= current_time - Bot.window_start g user_id ->
        decision r.2 = Allowed
        /\ Bot.window_start r.1 user_id = current_time
        /\ Bot.count_of r.1 user_id = 1).
Proof.
  split.
  - intros backend user_id user_message current_time g.
    by_session_step backend user_id user_message current_time g.
    intros Hgap. rewrite bool_decide_eq_false_2 by lia.
    destruct (backend _); repeat case_bool_decide; by trace_simpl.
  - intros backend user_id message_text current_time g r Hgap.
    pose proof (Bot_handle_message_view backend user_id message_text
                  current_time g) as Hv.
    cbv zeta in Hv. fold r in Hv. unfold window_step in Hv.
    rewrite bool_decide_eq_false_2 in Hv by lia.
    by injection Hv as -> -> ->.
Qed.

Lemma fresh_window_after_sixty_seconds_witness :
  let g := (converse 7 [(down, str "a", 100); (down, str "b", 101);
                        (down, str "c", 102)] Bot2.initial).1 in
  let r := Bot2.handle_message down 7 (str "d") 160 g in
  Bot2.window_start g 7 = 100
  /\ Bot2.count_of g 7 = 3
  /\ decision r.2 = Allowed
  /\ Bot2.window_start r.1 7 = 160
  /\ Bot2.count_of r.1 7 = 1.
Proof.
  intros g r. split; [by vm_compute|]. split; [by vm_compute|].
  destruct fresh_window_after_sixty_seconds as [H _].
  apply (H down 7 (str "d") 160 g). by vm_compute.
Defined.

(** C3, as the spec states it, fails: a denied message does change the
    session, its arrival time is stored as the last activity. *)
Lemma denied_message_updates_last_activity :
  ~ (forall backend user_id user_message current_time g,
        let r :=
          Bot2.handle_message backend user_id user_message current_time g in
        decision r.2 = Denied ->
        Bot2.history r.1 user_id = Bot2.history g user_id
        /\ Bot2.last_activity r.1 user_id = Bot2.last_activity g user_id).
Proof.
  intros H.
  specialize (H down 7 (str "d") 103
                (converse 7 [(down, str "a", 100); (down, str "b", 101);
                             (down, str "c", 102)] Bot2.initial).1).
  destruct H as [_ H]; [by vm_compute|]. by vm_compute in H.
Qed.

(** C3, amended.  A denied message appends nothing to the history of its
    sender and makes no request to the backend; the inactivity check and the
    update of the last activity run before the rate limit, so the arrival
    time is stored, and the history is as it was when the gap is at most
    [INACTIVITY_TIMEOUT] and empty when it is longer. *)
Theorem denied_message_effect backend user_id user_message current_time g :
  let r := Bot2.handle_message backend user_id user_message current_time g in
  decision r.2 = Denied ->
  Bot2.last_activity r.1 user_id = current_time
  /\ requests r.2 = []
  /\ displayed r.2 = []
  /\ (current_time - Bot2.last_activity g user_id <= INACTIVITY_TIMEOUT ->
      Bot2.history r.1 user_id = Bot2.history g user_id)
  /\ (current_time - Bot2.last_activity g user_id > INACTIVITY_TIMEOUT ->
      Bot2.history r.1 user_id = []).
Proof.
  by_session_step backend user_id user_message current_time g.
  repeat case_bool_decide; simpl; try destruct (backend _);
    trace_simpl; intros; repeat split; intros; done || lia.
Qed.

Lemma denied_message_effect_witness :
  let g := (converse 7 [(down, str "a", 100); (down, str "b", 101);
                        (down, str "c", 102)] Bot2.initial).1 in
  let r := Bot2.handle_message down 7 (str "d") 103 g in
  decision r.2 = Denied
  /\ Bot2.last_activity g 7 = 102
  /\ Bot2.last_activity r.1 7 = 103
  /\ Bot2.history r.1 7 = Bot2.history g 7.
Proof.
  intros g r. split; [by vm_compute|]. split; [by vm_compute|].
  destruct (denied_message_effect down 7 (str "d") 103 g) as (Ha & _ & _ & Hh & _);
    [by vm_compute|].
  split; [exact Ha|]. apply Hh. by vm_compute.
Defined.

(** C5.  When the history of the sender is not empty and the message arrives
    more than [INACTIVITY_TIMEOUT] seconds after the stored last activity,
    the reset is reported and the history is cleared before the user turn is
    appended: an admitted message is sent to the backend as the only turn
    after the system instruction.  When the history is empty or the gap is at
    most [INACTIVITY_TIMEOUT], no reset is reported and an admitted message
    is sent after the whole stored history. *)
Theorem inactivity_auto_reset backend user_id user_message current_time g :
  let r := Bot2.handle_message backend user_id user_message current_time g in
  let turn := {| role := user; content := user_message |} in
  (Bot2.history g user_id <> []
   /\ current_time - Bot2.last_activity g user_id > INACTIVITY_TIMEOUT ->
   auto_reset_reported r.2 = true
   /\ (decision r.2 = Allowed ->
       requests r.2 = [Bot2.SYSTEM :: [turn]]
       /\ exists reply, Bot2.history r.1 user_id = turn :: reply)
   /\ (decision r.2 = Denied -> Bot2.history r.1 user_id = []))
  /\ (Bot2.history g user_id = []
      \/ current_time - Bot2.last_activity g user_id <= INACTIVITY_TIMEOUT ->
      auto_reset_reported r.2 = false
      /\ (decision r.2 = Allowed ->
          requests r.2 = [Bot2.SYSTEM :: Bot2.history g user_id ++ [turn]])
      /\ (decision r.2 = Denied ->
          Bot2.history r.1 user_id = Bot2.history g user_id)).
Proof.
  by_session_step backend user_id user_message current_time g.
  split.
  - intros [Hh Hgap].
    rewrite (bool_decide_eq_true_2 (_ > _)), (bool_decide_eq_true_2 (_ <> _))
      by done.
    simpl. repeat case_bool_decide; simpl; try destruct (backend _);
      trace_simpl; repeat split; intros; by eauto.
  - intros Hno.
    assert (bool_decide (current_time - Bot2.last_activity g user_id > 1800)
            && bool_decide (Bot2.history g user_id <> []) = false) as ->.
    { destruct Hno as [Hh|Hgap].
      - rewrite (bool_decide_eq_false_2 (_ <> _)) by (by intros []).
        apply andb_false_r.
      - by rewrite (bool_decide_eq_false_2 (_ > _)) by lia. }
    repeat case_bool_decide; simpl; try destruct (backend _);
      by trace_simpl.
Qed.

Lemma inactivity_auto_reset_witness :
  let g := (converse 7 [(answers (str "hello"), str "hi", 100)]
              Bot2.initial).1 in
  let r := Bot2.handle_message down 7 (str "bye") 1901 g in
  Bot2.history g 7
  = [{| role := user; content := str "hi" |};
     {| role := assistant; content := str "hello" |}]
  /\ auto_reset_reported r.2 = true
  /\ requests r.2 = [[Bot2.SYSTEM; {| role := user; content := str "bye" |}]].
Proof.
  intros g r. split; [by vm_compute|].
  destruct (inactivity_auto_reset down 7 (str "bye") 1901 g) as [H _].
  destruct H as (Hrep & Hreq & _); [by vm_compute|].
  split; [exact Hrep|]. apply Hreq. by vm_compute.
Defined.

(** C6, as the spec states it, fails: for a user whose entry exists with an
    empty history, [reset] reports a reset and stores the clock reading. *)
Lemma reset_with_empty_history_reports_reset :
  ~ (forall user_id now g,
        Bot2.has_session g user_id = false \/ Bot2.history g user_id = [] ->
        Bot2.reset user_id now g = (g, [reply_text NO_HISTORY])).
Proof.
  intros H.
  specialize (H 7 102
                (Bot2.run [Bot2.Text down 7 (str "hi") 100; Bot2.Reset 7 101]
                   Bot2.initial).1).
  apply (f_equal snd) in H; [|right; by vm_compute].
  by vm_compute in H.
Qed.

(** C6, amended.  [reset] reports that there is nothing to reset and changes
    nothing when the user has no entry in [CONVERSATIONS]; when the entry
    exists, also with an empty history, it clears the history, stores the
    clock reading as the last activity and reports the reset.  A user with a
    non-empty history has an entry. *)
Theorem manual_reset_by_entry user_id now g :
  let r := Bot2.reset user_id now g in
  (Bot2.has_session g user_id = false -> r = (g, [reply_text NO_HISTORY]))
  /\ (Bot2.has_session g user_id = true ->
      r.2 = [reply_text RESET_DONE]
      /\ Bot2.history r.1 user_id = []
      /\ Bot2.last_activity r.1 user_id = now
      /\ Bot2.has_session r.1 user_id = true
      /\ Bot2.count_of r.1 user_id = Bot2.count_of g user_id
      /\ Bot2.window_start r.1 user_id = Bot2.window_start g user_id)
  /\ (Bot2.history g user_id <> [] -> Bot2.has_session g user_id = true).
Proof.
  intros r. pose proof (reset_view user_id now g) as Hr.
  cbv zeta in Hr. fold r in Hr. split; [|split].
  - intros Hno. by rewrite Hno in Hr.
  - intros Hyes. rewrite Hyes in Hr. destruct Hr as [Ht Hv].
    split; [done|].
    change (Bot2.history r.1 user_id) with (v_history (view r.1 user_id)).
    change (Bot2.last_activity r.1 user_id) with (v_activity (view r.1 user_id)).
    change (Bot2.count_of r.1 user_id) with (v_count (view r.1 user_id)).
    change (Bot2.window_start r.1 user_id) with (v_start (view r.1 user_id)).
    rewrite Hv. repeat split.
    unfold r, Bot2.reset. unfold Bot2.has_session in Hyes. rewrite Hyes.
    apply contains_setitem.
  - unfold Bot2.history, Bot2.has_session, peek, contains.
    destruct (Bot2.CONVERSATIONS g !! user_id); [|done].
    intros _. by apply bool_decide_eq_true_2.
Qed.

Lemma manual_reset_by_entry_witness :
  let g := (Bot2.run [Bot2.Text down 7 (str "hi") 100] Bot2.initial).1 in
  Bot2.reset 8 101 g = (g, [reply_text NO_HISTORY])
  /\ (Bot2.reset 7 101 g).2 = [reply_text RESET_DONE]
  /\ Bot2.history (Bot2.reset 7 101 g).1 7 = []
  /\ Bot2.last_activity (Bot2.reset 7 101 g).1 7 = 101.
Proof.
  intros g.
  destruct (manual_reset_by_entry 8 101 g) as (Hno & _ & _).
  destruct (manual_reset_by_entry 7 101 g) as (_ & Hyes & _).
  split; [apply Hno; by vm_compute|].
  destruct Hyes as (Ht & Hh & Ha & _); [by vm_compute|].
  by repeat split.
Defined.

(** C7.  When the backend raises on the request of an admitted message, the
    history of the sender ends with the user turn of that message, no
    assistant turn is appended, nothing is shown as an answer, the request
    is made once, and the count holds the increment of the rate limit: one
    more than before inside the window, 1 in a new window. *)
Theorem backend_failure_keeps_quota backend user_id user_message current_time g :
  let r := Bot2.handle_message backend user_id user_message current_time g in
  let turn := {| role := user; content := user_message |} in
  decision r.2 = Allowed ->
  Forall (fun messages => backend messages = Raises) (requests r.2) ->
  failed r.2 = true
  /\ (exists h, Bot2.history r.1 user_id = h ++ [turn]
                /\ (h = Bot2.history g user_id \/ h = []))
  /\ displayed r.2 = []
  /\ length (requests r.2) = 1%nat
  /\ Bot2.count_of r.1 user_id
     = (if bool_decide (current_time - Bot2.window_start g user_id < 60)
        then Bot2.count_of g user_id + 1 else 1).
Proof.
  by_session_step backend user_id user_message current_time g.
  repeat case_bool_decide; simpl;
    try (destruct (backend _) eqn:Hb); trace_simpl; intros Hd Hreq;
    try done; try (apply Forall_cons in Hreq as [Hreq _]; congruence);
    repeat split; eauto; exists []; (split; [done|by right]).
Qed.

Lemma backend_failure_keeps_quota_witness :
  let g := (converse 7 [(answers (str "hello"), str "hi", 100)]
              Bot2.initial).1 in
  let r := Bot2.handle_message down 7 (str "bye") 110 g in
  Bot2.count_of g 7 = 1
  /\ Bot2.count_of r.1 7 = 2
  /\ Bot2.history r.1 7
     = Bot2.history g 7 ++ [{| role := user; content := str "bye" |}].
Proof.
  intros g r. split; [by vm_compute|].
  destruct (backend_failure_keeps_quota down 7 (str "bye") 110 g)
    as (_ & _ & _ & _ & Hn); [by vm_compute|by repeat constructor|].
  split; [exact Hn|by vm_compute].
Defined.

(** ** The trim *)

Lemma length_last_n {A} (n : nat) (l : list A) :
  length (last_n n l) = Nat.min n (length l).
Proof. unfold last_n. rewrite length_drop. lia. Qed.

Lemma last_n_app_r {A} (n : nat) (a b : list A) :
  last_n n (last_n n a ++ b) = last_n n (a ++ b).
Proof.
  destruct (decide (length a <= n)%nat) as [Hle|Hgt].
  - by rewrite (last_n_short n a).
  - pose proof (take_drop (length a - n) a) as Ha.
    pose proof (length_drop a (length a - n)) as Hlen.
    revert Ha Hlen.
    generalize (take (length a - n) a) (drop (length a - n) a).
    intros a1 a2 <- Hlen. rewrite length_app in Hlen, Hgt.
    assert (length a2 = n) as Hn by lia.
    assert (last_n n (a1 ++ a2) = a2) as ->.
    { unfold last_n. rewrite length_app.
      apply drop_app_length'. lia. }
    rewrite <- app_assoc. unfold last_n. rewrite !length_app.
    replace (length a1 + (length a2 + length b) - n)%nat
      with (length a1 + (length a2 + length b - n))%nat by lia.
    by rewrite drop_app_add.
Qed.

Lemma last_last_n_snoc {A} (n : nat) (l : list A) (x : A) :
  (0 < n)%nat -> last (last_n n (l ++ [x])) = Some x.
Proof.
  intros Hn. unfold last_n. rewrite length_app. simpl.
  rewrite drop_app_le by lia. apply last_snoc.
Qed.

(** C2, as the spec states it, fails: the user turn is appended without a
    trim, and when the backend then raises the handler ends with 21 turns
    stored. *)
Lemma history_exceeds_cap_after_user_turn :
  ~ (forall g user_id,
        Bot2.reachable g -> (length (Bot2.history g user_id) <= 20)%nat).
Proof.
  intros H.
  pose (ok := fun t => Bot2.Text (answers (str "ok")) 7 (str "hi") t).
  specialize (H (Bot2.run [ok 100; ok 200; ok 300; ok 400; ok 500; ok 600;
                           ok 700; ok 800; ok 900; ok 1000;
                           Bot2.Text down 7 (str "hi") 1100]
                   Bot2.initial).1 7).
  assert (~ (21 <= 20)%nat) as Hlt by lia. apply Hlt.
  etrans; [|apply H; by eexists]. by vm_compute.
Qed.

(** C2, amended.  After a message that was admitted and answered, that is
    after the assistant turn is recorded and the trim of lines 119-121 has
    run, the history of the sender holds at most 20 turns: the last 20 of
    the stored turns followed by the user turn and the assistant turn. *)
Theorem history_capped_after_reply backend user_id user_message current_time g :
  let r := Bot2.handle_message backend user_id user_message current_time g in
  decision r.2 = Allowed ->
  failed r.2 = false ->
  (length (Bot2.history r.1 user_id) <= 20)%nat
  /\ exists h bot_response,
       Bot2.history r.1 user_id
       = last_n 20 (h ++ [{| role := user; content := user_message |};
                          {| role := assistant; content := bot_response |}])
       /\ (h = Bot2.history g user_id \/ h = [])
       /\ requests r.2
          = [Bot2.SYSTEM :: h ++ [{| role := user; content := user_message |}]].
Proof.
  by_session_step backend user_id user_message current_time g.
  repeat case_bool_decide; simpl;
    try (destruct (backend _) eqn:Hb); trace_simpl; intros Hd Hf; try done.
  all: split;
    [first [rewrite length_last_n; apply Nat.le_min_l | simpl; lia]|].
  all: rewrite <- ?app_assoc; simpl.
  all: first [ by exists (Bot2.history g user_id), bot_response; auto
             | by exists [], bot_response; auto ].
Qed.

Lemma history_capped_after_reply_witness :
  let g := (converse 7 (map call_of
                          [(100, str "1", str "a"); (200, str "2", str "b");
                           (300, str "3", str "c"); (400, str "4", str "d");
                           (500, str "5", str "e"); (600, str "6", str "f");
                           (700, str "7", str "g"); (800, str "8", str "h");
                           (900, str "9", str "i"); (1000, str "10", str "j")])
              Bot2.initial).1 in
  let r := Bot2.handle_message (answers (str "k")) 7 (str "11") 1100 g in
  length (Bot2.history g 7) = 20%nat
  /\ (length (Bot2.history r.1 7) <= 20)%nat.
Proof.
  intros g r. split; [by vm_compute|].
  by destruct (history_capped_after_reply (answers (str "k")) 7 (str "11") 1100 g)
    as [Hlen _]; [by vm_compute|by vm_compute|].
Defined.

(** ** Request/reply pairs *)

Lemma successful_step (x : Exchange) (v : View) :
  let '(backend, user_message, current_time) := call_of x in
  let s := session_step backend user_message current_time v in
  successful s.2 = true ->
  v_history s.1 = last_n 20 (v_history v ++ turns_of x).
Proof.
  destruct x as [[current_time user_message] bot_response]. simpl.
  unfold session_step, answers.
  destruct (is_expired _ _), (window_step _ _ _) as [[[] n] t];
    trace_simpl; intros Hs; try done.
  by rewrite <- app_assoc.
Qed.

Lemma successful_steps (xs : list Exchange) : forall v,
  let s := session_steps (map call_of xs) v in
  (length (v_history v) <= 20)%nat ->
  forallb successful s.2 = true ->
  v_history s.1 = last_n 20 (v_history v ++ flat_map turns_of xs).
Proof.
  induction xs as [|x xs IH]; intros v; simpl.
  - intros Hlen _. rewrite app_nil_r. by rewrite last_n_short.
  - intros Hlen. pose proof (successful_step x v) as Hx.
    destruct (call_of x) as [[backend user_message] current_time].
    cbv zeta in Hx.
    destruct (session_step _ _ _ _) as [v1 trace]. simpl in Hx.
    specialize (IH v1). cbv zeta in IH.
    destruct (session_steps _ v1) as [v2 traces]. simpl in *.
    intros [Hs Hall]%andb_prop. specialize (Hx Hs).
    rewrite IH; [|rewrite Hx, length_last_n; lia|done].
    by rewrite Hx, last_n_app_r, <- app_assoc.
Qed.

(** C4.  Eleven request/reply pairs in a row, each admitted, answered and
    without inactivity reset, starting from an empty history, leave exactly
    20 turns: those of the last ten pairs in their order; each pair leaves
    the last 20 of the stored turns followed by its two turns. *)
Theorem eleven_pairs_keep_last_ten user_id (xs : list Exchange) g :
  let r := converse user_id (map call_of xs) g in
  Bot2.history g user_id = [] ->
  length xs = 11%nat ->
  forallb successful r.2 = true ->
  Bot2.history r.1 user_id = flat_map turns_of (drop 1 xs)
  /\ length (Bot2.history r.1 user_id) = 20%nat
  /\ forall (x : Exchange),
       let '(backend, user_message, current_time) := call_of x in
       let r1 :=
         Bot2.handle_message backend user_id user_message current_time g in
       successful r1.2 = true ->
       Bot2.history r1.1 user_id
       = last_n 20 (Bot2.history g user_id ++ turns_of x).
Proof.
  intros r Hempty Hlen Hall.
  pose proof (converse_view user_id (map call_of xs) g) as Hv.
  cbv zeta in Hv. fold r in Hv.
  pose proof (successful_steps xs (view g user_id)) as Hsteps.
  cbv zeta in Hsteps. rewrite <- Hv in Hsteps. simpl in Hsteps.
  rewrite Hempty in Hsteps. simpl in Hsteps.
  specialize (Hsteps ltac:(lia) Hall).
  assert (forall l : list Exchange,
             length (flat_map turns_of l) = (2 * length l)%nat) as Hl2.
  { induction l as [|[[??]?] l IHl]; simpl; lia. }
  assert (Bot2.history r.1 user_id = flat_map turns_of (drop 1 xs)) as Hh.
  { rewrite Hsteps.
    destruct xs as [|[[t0 m0] r0] xs]; [done|]. simpl.
    unfold last_n. simpl. rewrite drop_0.
    replace (length (flat_map turns_of xs) - 18)%nat with 2%nat; [done|].
    rewrite Hl2. simpl in Hlen. lia. }
  split; [done|]. split.
  - rewrite Hh, Hl2, length_drop. lia.
  - intros x. pose proof (successful_step x (view g user_id)) as Hx.
    destruct (call_of x) as [[backend user_message] current_time].
    cbv zeta in *.
    destruct (handle_message_readings backend user_id user_message
                current_time g) as (_ & _ & -> & _ & ->).
    exact Hx.
Qed.

Lemma eleven_pairs_keep_last_ten_witness :
  let xs : list Exchange :=
    [(100, str "1", str "a"); (200, str "2", str "b");
     (300, str "3", str "c"); (400, str "4", str "d");
     (500, str "5", str "e"); (600, str "6", str "f");
     (700, str "7", str "g"); (800, str "8", str "h");
     (900, str "9", str "i"); (1000, str "10", str "j");
     (1100, str "11", str "k")] in
  Bot2.history (converse 7 (map call_of xs) Bot2.initial).1 7
  = flat_map turns_of (drop 1 xs).
Proof.
  intros xs.
  by destruct (eleven_pairs_keep_last_ten 7 xs Bot2.initial)
    as [H _]; [by vm_compute|by vm_compute|by vm_compute|].
Defined.

(** C8, as the spec states it, fails: the answer is stored as the backend
    gave it, and only the text shown is cleaned. *)
Lemma stored_reply_is_not_cleaned :
  ~ (forall bot_response user_id user_message current_time g,
        let r :=
          Bot2.handle_message (answers bot_response) user_id user_message
            current_time g in
        decision r.2 = Allowed ->
        last (Bot2.history r.1 user_id)
        = Some {| role := assistant; content := displayed r.2 |}).
Proof.
  intros H.
  specialize (H (str "\boxed{42}") 7 (str "hi") 100 Bot2.initial).
  cbv zeta in H. specialize (H ltac:(by vm_compute)).
  by vm_compute in H.
Qed.

(** C8, amended.  For a message that was admitted and answered, the turn
    stored last in the history of the sender is the assistant turn with the
    answer as the backend gave it, and the text shown to the user is that
    answer cleaned: the cleaning is applied before display only. *)
Theorem reply_cleaned_for_display_only
    backend user_id user_message current_time g :
  let r := Bot2.handle_message backend user_id user_message current_time g in
  decision r.2 = Allowed ->
  failed r.2 = false ->
  exists bot_response,
    Forall (fun messages => backend messages = Content bot_response)
      (requests r.2)
    /\ length (requests r.2) = 1%nat
    /\ last (Bot2.history r.1 user_id)
       = Some {| role := assistant; content := bot_response |}
    /\ displayed r.2 = clean bot_response.
Proof.
  by_session_step backend user_id user_message current_time g.
  repeat case_bool_decide; simpl;
    try (destruct (backend _) eqn:Hb); trace_simpl; intros Hd Hf; try done.
  all: exists bot_response.
  all: split; [by repeat constructor|].
  all: split; [done|].
  all: split; [|done].
  all: first [by apply last_last_n_snoc; lia | done].
Qed.

Lemma reply_cleaned_for_display_only_witness :
  let r := Bot2.handle_message (answers (str "\boxed{42}")) 7 (str "hi") 100
             Bot2.initial in
  exists bot_response,
    last (Bot2.history r.1 7)
    = Some {| role := assistant; content := bot_response |}
    /\ displayed r.2 = clean bot_response
    /\ bot_response = str "\boxed{42}"
    /\ displayed r.2 = str "42".
Proof.
  intros r.
  destruct (reply_cleaned_for_display_only (answers (str "\boxed{42}")) 7
              (str "hi") 100 Bot2.initial)
    as (bot_response & Hb & _ & Hl & Hd); [by vm_compute|by vm_compute|].
  exists bot_response. fold r in Hl, Hd. split; [exact Hl|]. split; [exact Hd|].
  split; [|by vm_compute].
  fold r in Hb. change (requests r.2) with
    [[Bot2.SYSTEM; {| role := user; content := str "hi" |}]] in Hb.
  apply Forall_cons in Hb as [Hb _]. by injection Hb.
Defined.

(** ** [str.replace] *)

Lemma startswith_spec (s old : text) :
  startswith s old = true <-> exists rest, s = old ++ rest.
Proof.
  revert s. induction old as [|a old IH]; intros s; simpl.
  - split; [intros _; by exists s|by destruct s].
  - destruct s as [|c s]; simpl.
    + split; [done|]. by intros [rest ?].
    + rewrite andb_true_iff, bool_decide_eq_true, IH. split.
      * intros [-> [rest ->]]. eauto.
      * intros [rest Heq]. injection Heq as -> ->. eauto.
Qed.

Lemma startswith_app (s w old : text) :
  startswith s old = true -> startswith (s ++ w) old = true.
Proof.
  rewrite !startswith_spec. intros [rest ->].
  exists (rest ++ w). by rewrite app_assoc.
Qed.

Lemma startswith_app_inv (u w old : text) :
  startswith (u ++ w) old = true ->
  (length old <= length u)%nat ->
  startswith u old = true.
Proof.
  revert u. induction old as [|a old IH]; intros u; simpl; [done|].
  destruct u as [|c u]; simpl; [lia|].
  rewrite !andb_true_iff. intros [? ?] ?. split; [done|]. apply IH; [done|lia].
Qed.

(** The scan of [u ++ w] is the scan of [u] followed by the scan of [w]
    when no occurrence of [old] begins in [u] and ends in [w]. *)
Lemma replace_from_app (old new w : text) :
  old <> [] ->
  (forall u, startswith (u ++ w) old = true ->
             u = [] \/ (length old <= length u)%nat) ->
  forall u k,
    (k <= length u)%nat ->
    replace_from old new k (u ++ w)
    = replace_from old new k u ++ replace_from old new O w.
Proof.
  intros Hold Hw. induction u as [|c u IH]; intros k Hk.
  - simpl in Hk. by replace k with O by lia.
  - simpl in Hk. destruct k as [|k]; simpl.
    + destruct (startswith (c :: u ++ w) old) eqn:Hs.
      * destruct (Hw (c :: u) Hs) as [|Hlen]; [done|].
        rewrite (startswith_app_inv (c :: u) w old Hs Hlen), <- app_assoc.
        f_equal. apply IH. simpl in Hlen. lia.
      * destruct (startswith (c :: u) old) eqn:Hs'.
        -- apply (startswith_app _ w) in Hs'. simpl in Hs'. congruence.
        -- simpl. f_equal. apply IH. lia.
    + apply IH. lia.
Qed.

(** The counter of [replace_from] is a jump behind the occurrence found. *)
Lemma replace_from_skip (old new : text) (s : text) : forall k,
  replace_from old new k s = replace_from old new O (drop k s).
Proof.
  induction s as [|c s IH]; intros [|k]; try done. simpl. apply IH.
Qed.

Lemma replace_found (old new s : text) :
  old <> [] -> s <> [] -> startswith s old = true ->
  replace s old new = new ++ replace (drop (length old) s) old new.
Proof.
  intros Hold Hs Hstart. unfold replace.
  destruct old as [|a old]; [done|]. destruct s as [|c s]; [done|].
  change (replace_from (a :: old) new O (c :: s))
    with (if startswith (c :: s) (a :: old)
          then new ++ replace_from (a :: old) new (length old) s
          else c :: replace_from (a :: old) new O s).
  rewrite Hstart. f_equal. etrans; [apply replace_from_skip|done].
Qed.

Lemma replace_not_found (old new : text) (c : ascii) (s : text) :
  old <> [] -> startswith (c :: s) old = false ->
  replace (c :: s) old new = c :: replace s old new.
Proof.
  intros Hold Hstart. unfold replace.
  destruct old as [|a old]; [done|].
  change (replace_from (a :: old) new O (c :: s))
    with (if startswith (c :: s) (a :: old)
          then new ++ replace_from (a :: old) new (length old) s
          else c :: replace_from (a :: old) new O s).
  by rewrite Hstart.
Qed.

Lemma replace_from_absent (old new : text) (s : text) :
  occurs s old = false -> replace_from old new O s = s.
Proof.
  induction s as [|c s IH]; simpl; [done|].
  intros [Hs Ho]%orb_false_elim. rewrite Hs. f_equal. by apply IH.
Qed.

Lemma replace_char (c : ascii) (s : text) :
  replace s [c] [] = filter (fun x => x <> c) s.
Proof.
  unfold replace. induction s as [|x s IH]; [done|].
  simpl. rewrite andb_true_r. rewrite IH.
  destruct (decide (c = x)) as [->|Hne].
  - rewrite bool_decide_eq_true_2 by done.
    by rewrite filter_cons_False by (by intros ?).
  - rewrite bool_decide_eq_false_2 by done.
    by rewrite filter_cons_True by congruence.
Qed.

(** No occurrence of the pattern of [clean] ends inside a later occurrence
    of it, or runs over a closing brace. *)
Lemma boxed_not_across_boxed (u v : text) :
  startswith (u ++ str "\boxed{" ++ v) (str "\boxed{") = true ->
  u = [] \/ (length (str "\boxed{") <= length u)%nat.
Proof.
  rewrite startswith_spec. intros [rest Heq].
  destruct u as [|c1 [|c2 [|c3 [|c4 [|c5 [|c6 [|c7 u]]]]]]];
    [by left|by simplify_eq/=..|right; simpl; lia].
Qed.

Lemma boxed_not_across_brace (u v : text) :
  startswith (u ++ str "}" ++ v) (str "\boxed{") = true ->
  u = [] \/ (length (str "\boxed{") <= length u)%nat.
Proof.
  rewrite startswith_spec. intros [rest Heq].
  destruct u as [|c1 [|c2 [|c3 [|c4 [|c5 [|c6 [|c7 u]]]]]]];
    [by simplify_eq/=..|right; simpl; lia].
Qed.

Lemma clean_filter (r : text) :
  clean r
  = filter (fun x => x <> "}"%char) (replace_from (str "\boxed{") [] O r).
Proof. unfold clean. by rewrite (replace_char "}"). Qed.

Lemma clean_app_boxed (u v : text) :
  clean (u ++ str "\boxed{" ++ v) = clean u ++ clean v.
Proof.
  rewrite !clean_filter.
  rewrite (replace_from_app (str "\boxed{") [] (str "\boxed{" ++ v));
    [|done|intros u'; apply boxed_not_across_boxed|lia].
  by rewrite filter_app.
Qed.

Lemma clean_app_brace (u v : text) :
  clean (u ++ str "}" ++ v) = clean u ++ clean v.
Proof.
  rewrite !clean_filter.
  rewrite (replace_from_app (str "\boxed{") [] (str "}" ++ v));
    [|done|intros u'; apply boxed_not_across_brace|lia].
  by rewrite filter_app.
Qed.

Lemma clean_absent (s : text) :
  occurs s (str "\boxed{") = false -> ~ In "}"%char s -> clean s = s.
Proof.
  intros Ho Hb. rewrite clean_filter, replace_from_absent by done.
  induction s as [|c s IH]; [done|].
  simpl in Ho. apply orb_false_elim in Ho as [_ Ho].
  rewrite filter_cons_True.
  - f_equal. apply IH; [done|]. intros ?. apply Hb. by right.
  - intros ->. apply Hb. by left.
Qed.

Lemma clean_no_brace (r : text) : ~ In "}"%char (clean r).
Proof.
  rewrite clean_filter. intros Hin%list_elem_of_In.
  by apply list_elem_of_filter in Hin as [? _].
Qed.

(** C10.  The text shown for an answer is [clean] of it, in [bot2.0.py] and
    in [bot.py], and [clean] removes every occurrence of the pattern and
    every closing brace: the result holds no closing brace; an occurrence of
    the pattern, or a closing brace, anywhere in the answer is dropped and
    the texts on its two sides are cleaned on their own; an answer without
    the pattern and without closing brace is shown as it is. *)
Theorem clean_removes_boxed_and_braces :
  (forall bot_response, ~ In "}"%char (clean bot_response))
  /\ (forall u v, clean (u ++ str "\boxed{" ++ v) = clean u ++ clean v)
  /\ (forall u v, clean (u ++ str "}" ++ v) = clean u ++ clean v)
  /\ (forall s,
        occurs s (str "\boxed{") = false -> ~ In "}"%char s -> clean s = s)
  /\ (forall bot_response user_id user_message current_time g,
        let r :=
          Bot2.handle_message (answers bot_response) user_id user_message
            current_time g in
        decision r.2 = Allowed -> displayed r.2 = clean bot_response)
  /\ (forall bot_response user_id message_text current_time g,
        let r :=
          Bot.handle_message (answers bot_response) user_id message_text
            current_time g in
        decision r.2 = Allowed -> displayed r.2 = clean bot_response).
Proof.
  split; [apply clean_no_brace|].
  split; [apply clean_app_boxed|].
  split; [apply clean_app_brace|].
  split; [apply clean_absent|].
  split.
  - intros bot_response user_id user_message current_time g.
    by_session_step (answers bot_response) user_id user_message current_time g.
    unfold answers.
    repeat case_bool_decide; trace_simpl; intros; done || by rewrite app_nil_r.
  - intros bot_response user_id message_text current_time g.
    cbv zeta. unfold Bot.handle_message, answers.
    destruct (rate_limit _ _ _ _) as [[[] count] last];
      trace_simpl; intros; done || by rewrite app_nil_r.
Qed.

Lemma clean_removes_boxed_and_braces_witness :
  clean (str "x = \boxed{42} and {y}") = str "x = 42 and {y"
  /\ clean (str "plain") = str "plain".
Proof.
  split; [by vm_compute|].
  destruct clean_removes_boxed_and_braces as (_ & _ & _ & Hid & _).
  apply Hid; [by vm_compute|].
  intros Hin. simpl in Hin. by repeat destruct Hin as [Hin|Hin].
Defined.

(** The text left by [clean] can still hold the pattern, put together from
    the pieces around what was removed. *)
Remark clean_can_leave_boxed :
  clean (str "\box}ed{") = str "\boxed{"
  /\ clean (str "\box\boxed{ed{") = str "\boxed{".
Proof. by vm_compute. Qed.

(** * Further properties of the two files *)

(** ** The sending loop *)

Lemma chunk_texts_send_chunks (s : text) :
  chunk_texts (send_chunks s)
  = map (fun i => take max_length (drop i s)) (range (length s) max_length).
Proof.
  unfold send_chunks. induction (range _ _) as [|i l IH]; [done|].
  simpl. by rewrite IH.
Qed.

Lemma concat_chunk_texts (trace : list Effect) :
  concat (chunk_texts trace) = displayed trace.
Proof. induction trace as [|[[]|] l IH]; simpl; by rewrite ?IH. Qed.

Lemma range_below stop step i :
  (0 < step)%nat -> In i (range stop step) -> (i < stop)%nat.
Proof.
  intros Hstep. unfold range. rewrite in_map_iff.
  intros (k & <- & Hk). apply in_seq in Hk.
  pose proof (Nat.div_mod_eq (stop + pred step) step) as Hd.
  pose proof (Nat.mod_upper_bound (stop + pred step) step) as Hm.
  nia.
Qed.

(** X1.  The loop of lines 112-117 cuts the cleaned answer into
    [ceil (len / 4096)] pieces, none empty and none longer than 4096
    characters, whose concatenation is the cleaned answer; an empty answer
    is not sent at all. *)
Theorem chunks_partition_the_answer (clean_response : text) :
  concat (chunk_texts (send_chunks clean_response)) = clean_response
  /\ Forall (fun chunk => (0 < length chunk <= max_length)%nat)
       (chunk_texts (send_chunks clean_response))
  /\ length (send_chunks clean_response)
     = ((length clean_response + 4095) / 4096)%nat
  /\ (send_chunks clean_response = [] <-> clean_response = []).
Proof.
  assert (length (send_chunks clean_response)
          = ((length clean_response + 4095) / 4096)%nat) as Hlen.
  { unfold send_chunks, range. by rewrite !length_map, length_seq. }
  split; [|split; [|split; [done|]]].
  - by rewrite concat_chunk_texts, displayed_send_chunks.
  - rewrite chunk_texts_send_chunks. apply Forall_forall.
    intros chunk Hin%list_elem_of_In. apply in_map_iff in Hin as (i & <- & Hi).
    apply range_below in Hi; [|unfold max_length; lia].
    rewrite length_take, length_drop. unfold max_length. lia.
  - split.
    + intros Hnil. rewrite Hnil in Hlen.
      destruct clean_response as [|c s]; [done|].
      change (length (@nil Effect)) with O in Hlen.
      change (length (c :: s)) with (S (length s)) in Hlen.
      assert (1 <= (S (length s) + 4095) / 4096)%nat; [|lia].
      apply Nat.div_le_lower_bound; lia.
    + by intros ->.
Qed.

(** ** The cleaning *)

Lemma replace_from_erase_sublist (old : text) (s : text) : forall k,
  replace_from old [] k s `sublist_of` s.
Proof.
  induction s as [|c s IH]; intros k; [done|].
  destruct k as [|k].
  - change (replace_from old [] O (c :: s))
      with (if startswith (c :: s) old
            then [] ++ replace_from old [] (pred (length old)) s
            else c :: replace_from old [] O s).
    destruct (startswith _ _); simpl.
    + by apply sublist_cons.
    + by apply sublist_skip.
  - simpl. by apply sublist_cons.
Qed.

(** X2.  The cleaning of line 110 only deletes: the text shown is the answer
    with some characters left out, in the order they had, so it is never
    longer than the answer, and every character shown stood in the answer. *)
Theorem clean_only_deletes (bot_response : text) :
  clean bot_response `sublist_of` bot_response
  /\ (length (clean bot_response) <= length bot_response)%nat
  /\ (forall c, In c (clean bot_response) -> In c bot_response).
Proof.
  assert (clean bot_response `sublist_of` bot_response) as Hsub.
  { rewrite clean_filter. etrans; [apply sublist_filter; apply _|].
    apply replace_from_erase_sublist. }
  split; [done|]. split; [by apply sublist_length|].
  intros c Hin%list_elem_of_In. apply list_elem_of_In.
  by eapply sublist_subseteq.
Qed.

Lemma clean_only_deletes_witness :
  clean (str "f(x) = {1}") = str "f(x) = {1"
  /\ In "1"%char (str "f(x) = {1}").
Proof.
  split; [by vm_compute|].
  destruct (clean_only_deletes (str "f(x) = {1}")) as (_ & _ & Hin).
  apply Hin. vm_compute. tauto.
Defined.

(** ** One user's updates and the entries of the others *)

Lemma handle_message_frame backend user_id user_message current_time g k :
  user_id <> k ->
  let r := Bot2.handle_message backend user_id user_message current_time g in
  Bot2.USER_REQUEST_COUNT r.1 !! k = Bot2.USER_REQUEST_COUNT g !! k
  /\ Bot2.LAST_REQUEST_TIME r.1 !! k = Bot2.LAST_REQUEST_TIME g !! k
  /\ Bot2.CONVERSATIONS r.1 !! k = Bot2.CONVERSATIONS g !! k
  /\ Bot2.LAST_ACTIVITY r.1 !! k = Bot2.LAST_ACTIVITY g !! k.
Proof.
  intros Hk. unfold Bot2.handle_message.
  destruct (auto_reset_spec user_id current_time
              (Bot2.CONVERSATIONS g) (Bot2.LAST_ACTIVITY g))
    as (C & A & -> & _ & _ & HCA & _).
  destruct (rate_limit_spec user_id current_time
              (Bot2.USER_REQUEST_COUNT g) (Bot2.LAST_REQUEST_TIME g))
    as (N & L & -> & _ & _ & HNL).
  destruct (HCA k Hk) as [HC HA]. destruct (HNL k Hk) as [HN HL].
  assert (forall d m, append d user_id m !! k = d !! k) as Happ.
  { intros d m. by apply append_spec. }
  assert (forall d, Bot2.trim user_id d !! k = d !! k) as Htrim.
  { intros d. by apply trim_spec. }
  destruct (window_step _ _ _) as [[[] n] t]; simpl; [|done].
  read_item. destruct (backend _); simpl;
    by rewrite ?Htrim, ?Happ, ?Hframe, ?Happ.
Qed.

Lemma reset_frame user_id now g k :
  user_id <> k ->
  let r := Bot2.reset user_id now g in
  Bot2.USER_REQUEST_COUNT r.1 !! k = Bot2.USER_REQUEST_COUNT g !! k
  /\ Bot2.LAST_REQUEST_TIME r.1 !! k = Bot2.LAST_REQUEST_TIME g !! k
  /\ Bot2.CONVERSATIONS r.1 !! k = Bot2.CONVERSATIONS g !! k
  /\ Bot2.LAST_ACTIVITY r.1 !! k = Bot2.LAST_ACTIVITY g !! k.
Proof.
  intros Hk. unfold Bot2.reset.
  destruct (contains _ _); simpl; [|done].
  by rewrite !lookup_setitem_ne.
Qed.

Lemma Bot_handle_message_frame backend user_id message_text current_time g k :
  user_id <> k ->
  let r := Bot.handle_message backend user_id message_text current_time g in
  Bot.USER_REQUEST_COUNT r.1 !! k = Bot.USER_REQUEST_COUNT g !! k
  /\ Bot.LAST_REQUEST_TIME r.1 !! k = Bot.LAST_REQUEST_TIME g !! k.
Proof.
  intros Hk. unfold Bot.handle_message.
  destruct (rate_limit_spec user_id current_time
              (Bot.USER_REQUEST_COUNT g) (Bot.LAST_REQUEST_TIME g))
    as (N & L & -> & _ & _ & HNL).
  destruct (HNL k Hk) as [HN HL].
  destruct (window_step _ _ _) as [[[] n] t]; simpl; [|done].
  by destruct (backend _).
Qed.

(** X3.  A text message or a reset of one user leaves the entries of every
    other user as they are, in each dictionary: no key is added, removed or
    given another value. *)
Theorem other_users_untouched :
  (forall backend user_id user_message current_time g k,
      user_id <> k ->
      let r :=
        Bot2.handle_message backend user_id user_message current_time g in
      Bot2.USER_REQUEST_COUNT r.1 !! k = Bot2.USER_REQUEST_COUNT g !! k
      /\ Bot2.LAST_REQUEST_TIME r.1 !! k = Bot2.LAST_REQUEST_TIME g !! k
      /\ Bot2.CONVERSATIONS r.1 !! k = Bot2.CONVERSATIONS g !! k
      /\ Bot2.LAST_ACTIVITY r.1 !! k = Bot2.LAST_ACTIVITY g !! k)
  /\ (forall user_id now g k,
        user_id <> k ->
        let r := Bot2.reset user_id now g in
        Bot2.USER_REQUEST_COUNT r.1 !! k = Bot2.USER_REQUEST_COUNT g !! k
        /\ Bot2.LAST_REQUEST_TIME r.1 !! k = Bot2.LAST_REQUEST_TIME g !! k
        /\ Bot2.CONVERSATIONS r.1 !! k = Bot2.CONVERSATIONS g !! k
        /\ Bot2.LAST_ACTIVITY r.1 !! k = Bot2.LAST_ACTIVITY g !! k)
  /\ (forall backend user_id message_text current_time g k,
        user_id <> k ->
        let r :=
          Bot.handle_message backend user_id message_text current_time g in
        Bot.USER_REQUEST_COUNT r.1 !! k = Bot.USER_REQUEST_COUNT g !! k
        /\ Bot.LAST_REQUEST_TIME r.1 !! k = Bot.LAST_REQUEST_TIME g !! k).
Proof.
  split; [|split].
  - intros. by apply handle_message_frame.
  - intros. by apply reset_frame.
  - intros. by apply Bot_handle_message_frame.
Qed.

Lemma other_users_untouched_witness :
  let g := (converse 7 [(answers (str "hello"), str "hi", 100)]
              Bot2.initial).1 in
  let r := Bot2.handle_message down 8 (str "yo") 5000 g in
  Bot2.CONVERSATIONS r.1 !! 7 = Bot2.CONVERSATIONS g !! 7
  /\ Bot2.CONVERSATIONS g !! 7
     = Some [{| role := user; content := str "hi" |};
             {| role := assistant; content := str "hello" |}]
  /\ Bot2.CONVERSATIONS r.1 !! 9 = None.
Proof.
  intros g r. destruct other_users_untouched as [H _].
  split; [|split].
  - apply (H down 8 (str "yo") 5000 g 7). lia.
  - by vm_compute.
  - etrans; [apply (H down 8 (str "yo") 5000 g 9); lia|by vm_compute].
Defined.

(** ** The key of a user in [CONVERSATIONS] *)

Lemma contains_lookup {V} (d d' : gmap Z V) k :
  d' !! k = d !! k -> contains d' k = contains d k.
Proof. unfold contains. by intros ->. Qed.

Lemma auto_reset_contains user_id current_time
    (conversations : gmap Z (list Message)) (activity : gmap Z Z) :
  contains (Bot2.auto_reset user_id current_time conversations activity).1.2
    user_id
  = contains conversations user_id
    || bool_decide (current_time - peek 0 activity user_id > INACTIVITY_TIMEOUT).
Proof.
  unfold Bot2.auto_reset. read_item. case_bool_decide; simpl.
  - read_item. rewrite orb_true_r.
    case_bool_decide; simpl; [apply contains_setitem|done].
  - by rewrite orb_false_r.
Qed.

(** [handle_message] leaves the sender with a key when it had one, when the
    inactivity check read the dictionary, or when the message was admitted. *)
Lemma handle_message_has_session backend user_id user_message current_time g :
  let r := Bot2.handle_message backend user_id user_message current_time g in
  Bot2.has_session r.1 user_id
  = Bot2.has_session g user_id
    || bool_decide
         (current_time - Bot2.last_activity g user_id > INACTIVITY_TIMEOUT)
    || negb (denied r.2).
Proof.
  unfold Bot2.handle_message, Bot2.has_session, Bot2.last_activity.
  pose proof (auto_reset_contains user_id current_time
                (Bot2.CONVERSATIONS g) (Bot2.LAST_ACTIVITY g)) as Hc.
  destruct (auto_reset_spec user_id current_time
              (Bot2.CONVERSATIONS g) (Bot2.LAST_ACTIVITY g))
    as (C & A & Heq & _). rewrite Heq in Hc |- *. simpl in Hc.
  destruct (rate_limit_spec user_id current_time
              (Bot2.USER_REQUEST_COUNT g) (Bot2.LAST_REQUEST_TIME g))
    as (N & L & -> & _).
  destruct (window_step _ _ _) as [[[] n] t]; simpl.
  - destruct (append_spec C user_id {| role := user; content := user_message |})
      as (_ & _ & Hu).
    read_item.
    destruct (backend _) as [|bot_response]; simpl; trace_simpl;
      destruct (bool_decide _ && bool_decide _); simpl.
    1, 2: rewrite Hin; by rewrite orb_true_r.
    all: destruct (append_spec d user_id
                  {| role := assistant; content := bot_response |})
        as (_ & _ & Ha);
      destruct (trim_spec user_id
                  (append d user_id
                     {| role := assistant; content := bot_response |}))
        as (_ & _ & Ht);
      rewrite (Ht Ha); by rewrite orb_true_r.
  - trace_simpl. destruct (bool_decide _ && bool_decide _); simpl;
      rewrite Hc; by rewrite orb_false_r.
Qed.

Lemma reset_has_session user_id now g :
  Bot2.has_session (Bot2.reset user_id now g).1 user_id
  = Bot2.has_session g user_id.
Proof.
  unfold Bot2.reset, Bot2.has_session.
  destruct (contains (Bot2.CONVERSATIONS g) user_id) eqn:Hc; simpl; [|done].
  apply contains_setitem.
Qed.

Lemma dispatch_observed_other u g k :
  sender u <> k -> observed (Bot2.dispatch u g).1 k = observed g k.
Proof.
  intros Hk. unfold observed, Bot2.has_session.
  destruct u as [user_id|user_id now|backend user_id user_message current_time];
    simpl in *; [done| |].
  - rewrite reset_other by done.
    destruct (reset_frame user_id now g k Hk) as (_ & _ & HC & _).
    by rewrite (contains_lookup _ _ _ HC).
  - rewrite handle_message_other by done.
    destruct (handle_message_frame backend user_id user_message current_time
                g k Hk) as (_ & _ & HC & _).
    by rewrite (contains_lookup _ _ _ HC).
Qed.

Lemma dispatch_observed_same u g1 g2 :
  observed g1 (sender u) = observed g2 (sender u) ->
  observed (Bot2.dispatch u g1).1 (sender u)
  = observed (Bot2.dispatch u g2).1 (sender u)
  /\ (Bot2.dispatch u g1).2 = (Bot2.dispatch u g2).2.
Proof.
  unfold observed.
  destruct u as [user_id|user_id now|backend user_id user_message current_time];
    cbn [sender Bot2.dispatch]; intros Hobs; [done| |];
    pose proof (f_equal fst Hobs) as Hv; pose proof (f_equal snd Hobs) as Hs;
    cbn [fst snd] in Hv, Hs; clear Hobs.
  - rewrite !reset_has_session, Hs.
    pose proof (reset_view user_id now g1) as H1.
    pose proof (reset_view user_id now g2) as H2.
    cbv zeta in H1, H2. rewrite Hs in H1.
    assert (Bot2.count_of g1 user_id = Bot2.count_of g2 user_id) as Hn
      by exact (f_equal v_count Hv).
    assert (Bot2.window_start g1 user_id = Bot2.window_start g2 user_id) as Hw
      by exact (f_equal v_start Hv).
    destruct (Bot2.has_session g2 user_id).
    + destruct H1 as [-> ->], H2 as [-> ->]. by rewrite Hn, Hw.
    + rewrite H1, H2. simpl. by rewrite Hv.
  - rewrite !handle_message_has_session.
    pose proof (handle_message_view backend user_id user_message
                  current_time g1) as H1.
    pose proof (handle_message_view backend user_id user_message
                  current_time g2) as H2.
    cbv zeta in H1, H2. rewrite Hv, <- H2 in H1.
    rewrite (f_equal fst H1 : view _ user_id = view _ user_id).
    rewrite (f_equal snd H1 : (Bot2.handle_message _ _ _ _ g1).2
                              = (Bot2.handle_message _ _ _ _ g2).2).
    rewrite Hs.
    by rewrite (f_equal v_activity Hv : Bot2.last_activity g1 user_id
                                        = Bot2.last_activity g2 user_id).
Qed.

(** X4.  In a run of updates of many users, what one user is sent, and what
    the handlers can find out about that user afterwards, are what they
    would be had the updates of all other users never arrived. *)
Theorem users_do_not_interfere (user_id : Z) (us : list Bot2.Update) g :
  let alone := filter (fun u => sender u = user_id) us in
  seen_by user_id us g = (Bot2.run alone g).2
  /\ observed (Bot2.run us g).1 user_id = observed (Bot2.run alone g).1 user_id.
Proof.
  cbv zeta.
  assert (forall g1 g2,
             observed g1 user_id = observed g2 user_id ->
             seen_by user_id us g1
             = (Bot2.run (filter (fun u => sender u = user_id) us) g2).2
             /\ observed (Bot2.run us g1).1 user_id
                = observed
                    (Bot2.run (filter (fun u => sender u = user_id) us) g2).1
                    user_id) as Hgen; [|by apply Hgen].
  induction us as [|u us IH]; intros g1 g2 Hobs; [done|].
  rewrite filter_cons. simpl.
  destruct (decide (sender u = user_id)) as [Hu|Hu].
  - rewrite bool_decide_eq_true_2 by done. simpl.
    subst user_id.
    destruct (dispatch_observed_same u g1 g2 Hobs) as [Hobs' Hsent].
    destruct (Bot2.dispatch u g1) as [g1' sent1].
    destruct (Bot2.dispatch u g2) as [g2' sent2]. simpl in Hobs', Hsent.
    subst sent2. destruct (IH g1' g2' Hobs') as [IHs IHo].
    destruct (Bot2.run us g1') as [g1'' sent1'].
    destruct (Bot2.run _ g2') as [g2'' sent2']. simpl in *.
    by rewrite IHs.
  - rewrite bool_decide_eq_false_2 by done. simpl.
    pose proof (dispatch_observed_other u g1 user_id Hu) as Hother.
    destruct (Bot2.dispatch u g1) as [g1' sent1]. simpl in Hother.
    rewrite <- Hother in Hobs.
    destruct (IH g1' g2 Hobs) as [IHs IHo].
    destruct (Bot2.run us g1') as [g1'' sent1']. simpl in *.
    done.
Qed.

(** ** Invariants of the runs, user by user *)

Section per_user_invariant.
Variable J : View -> bool -> Prop.
Variable ok : (list Message -> Backend) -> Prop.

Hypothesis J_reset : forall v now,
  J v true ->
  J {| v_count := v_count v; v_start := v_start v; v_history := [];
       v_activity := now |} true.

Hypothesis J_step : forall backend user_message current_time v s,
  ok backend ->
  J v s ->
  let st := session_step backend user_message current_time v in
  J st.1
    (s || bool_decide (current_time - v_activity v > INACTIVITY_TIMEOUT)
     || negb (denied st.2)).

Lemma dispatch_keeps u g :
  on_backend ok u ->
  (forall k, J (view g k) (Bot2.has_session g k)) ->
  forall k, J (view (Bot2.dispatch u g).1 k)
              (Bot2.has_session (Bot2.dispatch u g).1 k).
Proof.
  intros Hok Hg k.
  destruct (decide (sender u = k)) as [<-|Hk].
  - destruct u as [user_id|user_id now|backend user_id user_message current_time];
      cbn [sender Bot2.dispatch] in *; [apply Hg| |].
    + rewrite reset_has_session.
      pose proof (reset_view user_id now g) as Hr. cbv zeta in Hr.
      specialize (Hg user_id).
      destruct (Bot2.has_session g user_id).
      * destruct Hr as [_ ->]. by apply (J_reset (view g user_id)).
      * by rewrite Hr.
    + rewrite handle_message_has_session.
      pose proof (handle_message_view backend user_id user_message
                    current_time g) as Hv. cbv zeta in Hv.
      pose proof (J_step backend user_message current_time _ _ Hok
                    (Hg user_id)) as Hstep.
      cbv zeta in Hstep. rewrite <- Hv in Hstep. exact Hstep.
  - pose proof (dispatch_observed_other u g k Hk) as Hobs.
    rewrite (f_equal fst Hobs : view _ k = view _ k).
    rewrite (f_equal snd Hobs : Bot2.has_session _ k = Bot2.has_session _ k).
    apply Hg.
Qed.

Lemma run_keeps us : forall g,
  Forall (on_backend ok) us ->
  (forall k, J (view g k) (Bot2.has_session g k)) ->
  forall k, J (view (Bot2.run us g).1 k) (Bot2.has_session (Bot2.run us g).1 k).
Proof.
  induction us as [|u us IH]; intros g Hok Hg; [done|].
  apply Forall_cons in Hok as [Hu Hok]. simpl.
  pose proof (dispatch_keeps u g Hu Hg) as Hd.
  destruct (Bot2.dispatch u g) as [g1 sent].
  specialize (IH g1 Hok Hd). by destruct (Bot2.run us g1).
Qed.

End per_user_invariant.

Lemma initial_view k :
  view Bot2.initial k
  = {| v_count := 0; v_start := 0; v_history := []; v_activity := 0 |}
  /\ Bot2.has_session Bot2.initial k = false.
Proof. by vm_compute. Qed.

Lemma on_backend_any us : Forall (on_backend (fun _ => True)) us.
Proof. apply Forall_forall. by intros []. Qed.

Lemma stored_turns_reachable g k :
  Bot2.reachable g -> Forall stored_turn (Bot2.history g k).
Proof.
  intros [us <-].
  apply (run_keeps (fun v _ => Forall stored_turn (v_history v))
           (fun _ => True)); [done| | apply on_backend_any | by intros k'].
  intros backend user_message current_time v s _ Hv. cbv zeta.
  unfold session_step.
  assert (Forall stored_turn
            (if is_expired current_time v then [] else v_history v)) as Hh.
  { by destruct (is_expired _ _). }
  destruct (window_step _ _ _) as [[[] n] t]; [|done].
  destruct (backend _); simpl.
  - apply Forall_app. split; [done|]. by repeat constructor.
  - apply Forall_drop. rewrite !Forall_app.
    repeat split; [done|by repeat constructor..].
Qed.

(** X5.  In a reachable state the stored history of a user holds turns of
    the user and of the backend only, never the system instruction; a
    message makes no request when it is denied and one request when it is
    admitted, and that request is the system instruction, the stored turns
    that were kept, and the message itself as the last turn. *)
Theorem request_shape backend user_id user_message current_time g :
  let r := Bot2.handle_message backend user_id user_message current_time g in
  let turn := {| role := user; content := user_message |} in
  Bot2.reachable g ->
  Forall stored_turn (Bot2.history g user_id)
  /\ (decision r.2 = Denied -> requests r.2 = [])
  /\ (decision r.2 = Allowed ->
      exists h, requests r.2 = [Bot2.SYSTEM :: h ++ [turn]]
                /\ Forall stored_turn h
                /\ (h = Bot2.history g user_id \/ h = [])).
Proof.
  cbv zeta. intros Hreach.
  pose proof (stored_turns_reachable g user_id Hreach) as Hh.
  split; [done|]. revert Hh.
  by_session_step backend user_id user_message current_time g.
  intros Hh.
  repeat case_bool_decide; simpl; try destruct (backend _);
    trace_simpl; (split; [done|]); intros Hd; try done; eauto.
  all: exists []; split; [done|split; [done|by right]].
Qed.

Lemma request_shape_witness :
  let g := (Bot2.run [Bot2.Text (answers (str "hello")) 7 (str "hi") 100]
              Bot2.initial).1 in
  let r := Bot2.handle_message down 7 (str "bye") 110 g in
  Forall stored_turn (Bot2.history g 7)
  /\ requests r.2
     = [[Bot2.SYSTEM; {| role := user; content := str "hi" |};
         {| role := assistant; content := str "hello" |};
         {| role := user; content := str "bye" |}]].
Proof.
  intros g r.
  destruct (request_shape down 7 (str "bye") 110 g) as (Hh & _ & _).
  { by exists [Bot2.Text (answers (str "hello")) 7 (str "hi") 100]. }
  split; [exact Hh|by vm_compute].
Defined.

Lemma counted_users_have_session g k :
  Bot2.reachable g -> 1 <= Bot2.count_of g k -> Bot2.has_session g k = true.
Proof.
  intros [us <-].
  apply (run_keeps (fun v s => 1 <= v_count v -> s = true) (fun _ => True));
    [done| | apply on_backend_any | by intros k'].
  intros backend user_message current_time v s _ Hv. cbv zeta.
  destruct (session_step_decision backend user_message current_time v)
    as (Hd & Hn & _).
  unfold decision in Hd. unfold window_step, REQUEST_LIMIT in *.
  destruct (denied _); simpl; [|by rewrite orb_true_r].
  intros _. rewrite Hv; [done|].
  repeat case_bool_decide; simpl in *; done || lia.
Qed.

(** X6.  In a reachable state, once a user has sent a text message, whether
    it was admitted or denied and whatever the backend did, the user has a
    key in [CONVERSATIONS]: a reset that follows, at any time, reports the
    reset and never that nothing was found. *)
Theorem reset_after_message_finds_history
    backend user_id user_message current_time now g :
  let r := Bot2.handle_message backend user_id user_message current_time g in
  Bot2.reachable g ->
  Bot2.has_session r.1 user_id = true
  /\ (Bot2.reset user_id now r.1).2 = [reply_text RESET_DONE]
  /\ Bot2.history (Bot2.reset user_id now r.1).1 user_id = [].
Proof.
  cbv zeta. intros Hreach.
  assert (Bot2.has_session
            (Bot2.handle_message backend user_id user_message current_time g).1
            user_id = true) as Hs.
  { rewrite handle_message_has_session.
    destruct (denied _) eqn:Hden; simpl; [|by rewrite orb_true_r].
    rewrite (counted_users_have_session g user_id Hreach); [done|].
    revert Hden.
    by_session_step backend user_id user_message current_time g.
    repeat case_bool_decide; simpl; try destruct (backend _);
      trace_simpl; intros; done || lia. }
  split; [done|].
  pose proof (reset_view user_id now
                (Bot2.handle_message backend user_id user_message
                   current_time g).1) as Hr.
  cbv zeta in Hr. rewrite Hs in Hr. destruct Hr as [Ht Hv].
  split; [done|].
  exact (f_equal v_history Hv).
Qed.

Lemma reset_after_message_finds_history_witness :
  let g := (converse 7 [(down, str "a", 100); (down, str "b", 101);
                        (down, str "c", 102)] Bot2.initial).1 in
  let r := Bot2.handle_message down 7 (str "d") 103 g in
  decision r.2 = Denied
  /\ (Bot2.reset 7 104 r.1).2 = [reply_text RESET_DONE].
Proof.
  intros g r. split; [by vm_compute|].
  destruct (reset_after_message_finds_history down 7 (str "d") 103 104 g)
    as (_ & H & _); [|exact H].
  by exists [Bot2.Text down 7 (str "a") 100; Bot2.Text down 7 (str "b") 101;
             Bot2.Text down 7 (str "c") 102].
Defined.

(** X7.  While every backend call is answered, the cap holds between the
    handlers: after any run of updates in which no backend call raises, the
    history of every user holds at most 20 turns. *)
Theorem history_capped_while_backend_answers (us : list Bot2.Update) k :
  Forall answered us ->
  (length (Bot2.history (Bot2.run us Bot2.initial).1 k) <= 20)%nat.
Proof.
  intros Hok.
  apply (run_keeps (fun v _ => (length (v_history v) <= 20)%nat)
           always_answers);
    [simpl; lia| |done
    |intros k'; rewrite (proj1 (initial_view k')); simpl; lia].
  intros backend user_message current_time v s Hb Hv. cbv zeta.
  unfold session_step.
  assert (length (if is_expired current_time v then [] else v_history v)
          <= 20)%nat as Hh.
  { destruct (is_expired _ _); simpl; lia. }
  destruct (window_step _ _ _) as [[[] n] t]; [|done].
  destruct (Hb (Bot2.SYSTEM
                  :: (if is_expired current_time v then [] else v_history v)
                     ++ [{| role := user; content := user_message |}]))
    as [bot_response ->].
  simpl. rewrite length_last_n. lia.
Qed.

Lemma history_capped_while_backend_answers_witness :
  let ok := fun t => Bot2.Text (answers (str "ok")) 7 (str "hi") t in
  let us := [ok 100; ok 200; ok 300; ok 400; ok 500; ok 600; ok 700; ok 800;
             ok 900; ok 1000; ok 1100; Bot2.Reset 8 1150; ok 1200] in
  length (Bot2.history (Bot2.run us Bot2.initial).1 7) = 20%nat
  /\ (length (Bot2.history (Bot2.run us Bot2.initial).1 7) <= 20)%nat.
Proof.
  intros ok us. split; [by vm_compute|].
  apply history_capped_while_backend_answers.
  repeat constructor; intros messages; by eexists.
Defined.

(** ** First contact, reset, and what the backend cannot change *)

(** X8.  A user who has no key in any of the four dictionaries and writes
    when the clock is at 60 or more is admitted without a reset notice,
    though the gap to the default last activity 0 may exceed the timeout;
    the request holds the system instruction and the message only, and
    afterwards the user has count 1, a window and a last activity at the
    arrival time, and a key in [CONVERSATIONS]. *)
Theorem first_contact backend user_id user_message current_time g :
  let r := Bot2.handle_message backend user_id user_message current_time g in
  Bot2.USER_REQUEST_COUNT g !! user_id = None ->
  Bot2.LAST_REQUEST_TIME g !! user_id = None ->
  Bot2.CONVERSATIONS g !! user_id = None ->
  Bot2.LAST_ACTIVITY g !! user_id = None ->
  60 <= current_time ->
  decision r.2 = Allowed
  /\ auto_reset_reported r.2 = false
  /\ requests r.2
     = [[Bot2.SYSTEM; {| role := user; content := user_message |}]]
  /\ Bot2.count_of r.1 user_id = 1
  /\ Bot2.window_start r.1 user_id = current_time
  /\ Bot2.last_activity r.1 user_id = current_time
  /\ Bot2.has_session r.1 user_id = true.
Proof.
  cbv zeta. intros Hn Hw Hc Ha Ht.
  rewrite handle_message_has_session.
  by_session_step backend user_id user_message current_time g.
  unfold Bot2.count_of, Bot2.window_start, Bot2.history, Bot2.last_activity,
    peek.
  rewrite Hn, Hw, Hc, Ha. simpl.
  rewrite (bool_decide_eq_false_2 (_ < 60)) by lia.
  rewrite ?andb_false_r.
  destruct (backend _); trace_simpl; by rewrite ?orb_true_r.
Qed.

Lemma first_contact_witness :
  let r := Bot2.handle_message down 7 (str "hi") 1700000000 Bot2.initial in
  decision r.2 = Allowed
  /\ auto_reset_reported r.2 = false
  /\ Bot2.count_of r.1 7 = 1
  /\ Bot2.has_session r.1 7 = true.
Proof.
  intros r.
  destruct (first_contact down 7 (str "hi") 1700000000 Bot2.initial)
    as (Hd & Hr & _ & Hn & _ & _ & Hs); try done.
Defined.

(** X9.  After a reset of a user who has a key, the next message of that
    user, whenever it arrives, is never reported as reset by inactivity
    and, when admitted, is sent with the system instruction alone before
    it; the reset gives no quota back: the decision, the count and the
    window start are those the message would have got without the reset. *)
Theorem reset_then_message backend user_id user_message current_time now g :
  let g' := (Bot2.reset user_id now g).1 in
  let r := Bot2.handle_message backend user_id user_message current_time g' in
  let r0 := Bot2.handle_message backend user_id user_message current_time g in
  Bot2.has_session g user_id = true ->
  auto_reset_reported r.2 = false
  /\ decision r.2 = decision r0.2
  /\ Bot2.count_of r.1 user_id = Bot2.count_of r0.1 user_id
  /\ Bot2.window_start r.1 user_id = Bot2.window_start r0.1 user_id
  /\ (decision r.2 = Allowed ->
      requests r.2
      = [[Bot2.SYSTEM; {| role := user; content := user_message |}]]).
Proof.
  cbv zeta. intros Hs.
  pose proof (reset_view user_id now g) as Hr. cbv zeta in Hr.
  rewrite Hs in Hr. destruct Hr as [_ Hv].
  destruct (handle_message_readings backend user_id user_message current_time
              (Bot2.reset user_id now g).1) as (-> & -> & _ & _ & ->).
  destruct (handle_message_readings backend user_id user_message current_time
              g) as (-> & -> & _ & _ & ->).
  rewrite Hv.
  unfold session_step, window_step, is_expired, view. simpl.
  rewrite ?andb_false_r.
  repeat case_bool_decide; simpl; repeat destruct (backend _);
    by trace_simpl.
Qed.

Lemma reset_then_message_witness :
  let g := (converse 7 [(answers (str "x"), str "a", 100);
                        (answers (str "y"), str "b", 101);
                        (answers (str "z"), str "c", 102)] Bot2.initial).1 in
  let g' := (Bot2.reset 7 103 g).1 in
  let r := Bot2.handle_message down 7 (str "d") 104 g' in
  Bot2.has_session g 7 = true
  /\ auto_reset_reported r.2 = false
  /\ decision r.2 = Denied.
Proof.
  intros g g' r. split; [by vm_compute|].
  destruct (reset_then_message down 7 (str "d") 104 103 g) as (Ha & Hd & _);
    [by vm_compute|].
  split; [exact Ha|]. etrans; [exact Hd|by vm_compute].
Defined.

(** X10.  Neither the text of a message nor what the backend does with it
    changes the bookkeeping: the decision, the reset notice, the count, the
    window start, the last activity and the presence of the key are the same
    for any two texts and any two backends. *)
Theorem bookkeeping_ignores_text_and_backend
    backend1 backend2 user_message1 user_message2 user_id current_time g :
  let r1 :=
    Bot2.handle_message backend1 user_id user_message1 current_time g in
  let r2 :=
    Bot2.handle_message backend2 user_id user_message2 current_time g in
  decision r1.2 = decision r2.2
  /\ auto_reset_reported r1.2 = auto_reset_reported r2.2
  /\ Bot2.count_of r1.1 user_id = Bot2.count_of r2.1 user_id
  /\ Bot2.window_start r1.1 user_id = Bot2.window_start r2.1 user_id
  /\ Bot2.last_activity r1.1 user_id = Bot2.last_activity r2.1 user_id
  /\ Bot2.has_session r1.1 user_id = Bot2.has_session r2.1 user_id.
Proof.
  cbv zeta. rewrite !handle_message_has_session.
  destruct (handle_message_readings backend1 user_id user_message1
              current_time g) as (-> & -> & _ & -> & ->).
  destruct (handle_message_readings backend2 user_id user_message2
              current_time g) as (-> & -> & _ & -> & ->).
  unfold session_step.
  destruct (window_step _ _ _) as [[[] n] t], (is_expired _ _);
    try destruct (backend1 _); try destruct (backend2 _); by trace_simpl.
Qed.

(** ** The two files side by side *)

(** X11.  The rate limit of [bot2.0.py] is that of [bot.py]: from equal
    counts and window starts of a user, the same clock readings give the
    same decisions, message by message, whatever the texts, the backends
    and the stored conversations are. *)
Theorem rate_limit_same_in_both_files user_id (calls1 calls2 : list Call) :
  forall g1 g2,
    Bot.count_of g1 user_id = Bot2.count_of g2 user_id ->
    Bot.window_start g1 user_id = Bot2.window_start g2 user_id ->
    map snd calls1 = map snd calls2 ->
    map decision (Bot.converse user_id calls1 g1).2
    = map decision (converse user_id calls2 g2).2
    /\ Bot.count_of (Bot.converse user_id calls1 g1).1 user_id
       = Bot2.count_of (converse user_id calls2 g2).1 user_id
    /\ Bot.window_start (Bot.converse user_id calls1 g1).1 user_id
       = Bot2.window_start (converse user_id calls2 g2).1 user_id.
Proof.
  revert calls2.
  induction calls1 as [|[[b1 m1] t1] calls1 IH];
    intros [|[[b2 m2] t2] calls2] g1 g2 Hn Hw Ht; try done.
  simpl in Ht. injection Ht as -> Ht. simpl.
  pose proof (Bot_handle_message_view b1 user_id m1 t2 g1) as H1.
  pose proof (handle_message_view b2 user_id m2 t2 g2) as H2.
  destruct (session_step_decision b2 m2 t2 (view g2 user_id))
    as (Hd & Hc & Hs).
  cbv zeta in H1, H2. rewrite <- H2 in Hd, Hc, Hs. simpl in Hd, Hc, Hs.
  rewrite Hn, Hw in H1.
  destruct (Bot.handle_message b1 user_id m1 t2 g1) as [g1' trace1].
  destruct (Bot2.handle_message b2 user_id m2 t2 g2) as [g2' trace2].
  simpl in *.
  destruct (window_step _ _ _) as [[d n] t]. simpl in *.
  injection H1 as Hd1 Hn1 Hw1.
  destruct (IH calls2 g1' g2') as (IHd & IHn & IHw); [congruence..|done|].
  destruct (Bot.converse user_id calls1 g1') as [g1'' traces1].
  destruct (converse user_id calls2 g2') as [g2'' traces2]. simpl in *.
  split; [|done]. congruence.
Qed.

Lemma rate_limit_same_in_both_files_witness :
  let calls1 : list Call :=
    [(down, str "a", 100); (down, str "b", 110);
     (down, str "c", 120); (down, str "d", 130)] in
  let calls2 : list Call :=
    [(answers (str "w"), str "p", 100); (answers (str "x"), str "q", 110);
     (answers (str "y"), str "r", 120); (answers (str "z"), str "s", 130)] in
  map decision (Bot.converse 7 calls1 Bot.initial).2
  = map decision (converse 7 calls2 Bot2.initial).2.
Proof.
  intros calls1 calls2.
  by apply rate_limit_same_in_both_files.
Defined.

(** ** Conversations without a long pause *)

Lemma paced_steps (calls : list Call) : forall v,
  paced (v_activity v) calls ->
  let s := session_steps calls v in
  Forall (fun trace => auto_reset_reported trace = false) s.2
  /\ (Forall (fun c : Call => always_raises c.1.1) calls ->
      length (v_history s.1)
      = (length (v_history v)
         + length (filter (fun trace => denied trace = false) s.2))%nat).
Proof.
  induction calls as [|[[backend user_message] current_time] calls IH];
    intros v Hp; simpl.
  - split; [done|]. intros _. lia.
  - destruct Hp as [Hgap Hp]. simpl in Hgap.
    assert (is_expired current_time v = false) as Hexp.
    { unfold is_expired. by rewrite bool_decide_eq_false_2 by lia. }
    assert (v_activity (session_step backend user_message current_time v).1
            = current_time) as Hact.
    { unfold session_step. rewrite Hexp.
      destruct (window_step _ _ _) as [[[] n] t]; [|done].
      by destruct (backend _). }
    assert (auto_reset_reported
              (session_step backend user_message current_time v).2 = false)
      as Hrep.
    { unfold session_step. rewrite Hexp.
      destruct (window_step _ _ _) as [[[] n] t];
        [destruct (backend _)|]; by trace_simpl. }
    assert (always_raises backend ->
            length (v_history
                      (session_step backend user_message current_time v).1)
            = (length (v_history v)
               + if denied (session_step backend user_message current_time
                              v).2 then 0 else 1)%nat) as Hlen.
    { intros Hb. unfold session_step. rewrite Hexp.
      destruct (window_step _ _ _) as [[[] n] t]; [rewrite Hb|];
        trace_simpl; rewrite ?length_app; simpl; lia. }
    destruct (session_step backend user_message current_time v) as [v1 trace].
    simpl in Hact, Hrep, Hlen. subst current_time.
    destruct (IH v1 Hp) as [IHrep IHlen].
    destruct (session_steps calls v1) as [v2 traces]. simpl in *.
    split; [by constructor|].
    intros [Hb Hall]%Forall_cons. simpl in Hb.
    rewrite (IHlen Hall), (Hlen Hb), filter_cons.
    destruct (denied trace); simpl; lia.
Qed.

(** X12.  The inactivity clock runs from message to message, denied ones
    included: in a conversation where no message arrives more than 1800
    seconds after the one before it, no reset by inactivity is ever
    reported, however long the conversation lasts. *)
Theorem no_auto_reset_while_paced user_id (calls : list Call) g :
  paced (Bot2.last_activity g user_id) calls ->
  Forall (fun trace => auto_reset_reported trace = false)
    (converse user_id calls g).2.
Proof.
  intros Hp.
  pose proof (converse_view user_id calls g) as Hv. cbv zeta in Hv.
  destruct (paced_steps calls (view g user_id) Hp) as [Hrep _].
  by rewrite <- Hv in Hrep.
Qed.

Lemma no_auto_reset_while_paced_witness :
  Forall (fun trace => auto_reset_reported trace = false)
    (converse 7 [(answers (str "x"), str "a", 100); (down, str "b", 1900);
                 (down, str "c", 1901); (down, str "d", 1902);
                 (down, str "e", 1903); (down, str "f", 3703)]
       (Bot2.handle_message down 7 (str "0") 50 Bot2.initial).1).2.
Proof.
  apply no_auto_reset_while_paced.
  change (Bot2.last_activity _ 7) with 50.
  unfold paced, INACTIVITY_TIMEOUT. simpl. lia.
Defined.

(** X13.  While the backend raises, nothing trims the history: in a
    conversation without a long pause whose backend calls all raise, every
    admitted message leaves one more user turn stored, so the history grows
    by the number of admitted messages, past any cap. *)
Theorem failed_exchanges_pile_up user_id (calls : list Call) g :
  let r := converse user_id calls g in
  paced (Bot2.last_activity g user_id) calls ->
  Forall (fun c : Call => always_raises c.1.1) calls ->
  length (Bot2.history r.1 user_id)
  = (length (Bot2.history g user_id)
     + length (filter (fun trace => denied trace = false) r.2))%nat.
Proof.
  cbv zeta. intros Hp Hb.
  pose proof (converse_view user_id calls g) as Hv. cbv zeta in Hv.
  destruct (paced_steps calls (view g user_id) Hp) as [_ Hlen].
  specialize (Hlen Hb). by rewrite <- Hv in Hlen.
Qed.

Lemma failed_exchanges_pile_up_witness :
  let calls : list Call :=
    [(down, str "a", 100); (down, str "b", 101); (down, str "c", 102);
     (down, str "d", 103); (down, str "e", 160)] in
  length (Bot2.history (converse 7 calls Bot2.initial).1 7) = 4%nat.
Proof.
  intros calls.
  rewrite (failed_exchanges_pile_up 7 calls Bot2.initial).
  - by vm_compute.
  - change (Bot2.last_activity _ 7) with 0.
    unfold calls, paced, INACTIVITY_TIMEOUT. simpl. lia.
  - by repeat constructor.
Defined.
